(** * Probe finding in [probe_creator.py]: a shallow embedding

    The development follows the methods of the class [Probes]:
    the conservation profile ([metadata.identity]) built from the
    position-specific score matrix, the generator [window], the size
    loop of [probefinder], [probe_location] and [probes]; then the
    steps that come before them in [main]: [record_extraction],
    [remote_blast], [parse] and [create_allele_file].

    Numbers.  Every identity and every mean the code stores went through
    ['{:.2f}'.format] and [float]: it is a percentage with two decimals.
    Such a value is represented by its number of hundredths, an integer
    ([100.0] is [10000], the default cutoff [70] is [7000]), so that the
    comparisons [==], [>=], [<=], [>] and [min] of the code are the
    integer ones.  The quotients the code forms before formatting are
    taken exactly and rounded to the nearest hundredth, ties to even, as
    the formatting of an exact value does.

    Objects.  [GenObject] and [MetadataObject] hold attributes; they are
    records here, an attribute that may be read before it is assigned
    being an [option].  Exceptions are values of [result]: a loop stops
    at the first one, and none of those modelled is caught except where
    the code has a [try].

    Collaborators.  Files are represented by what is read from them;
    Biopython's consensus and score matrix are parameters of the
    pipeline, and so are the BLAST service, the reader of its reports
    and the order in which a set is iterated.  The one computation the
    code leaves in double precision, the identity threshold of [parse],
    is kept in double precision. *)

From Stdlib Require Import ZArith Lia Ascii String.
From Stdlib Require Import DecimalString DecimalPos DecimalZ.
From Stdlib Require PrimFloat Uint63.
From stdpp Require Import gmap strings list sets.

Local Open Scope Z_scope.

(** ** Exceptions and results *)

(** The exceptions that can leave the modelled code. *)
Inductive exn : Set :=
| RuntimeError
| ValueError
| AttributeError
| KeyError
| ZeroDivisionError
| AssertionError.

Inductive result (A : Type) : Type :=
| Ok (a : A)
| Raise (e : exn).
Global Arguments Ok {A} a.
Global Arguments Raise {A} e.

Global Instance exn_eq_dec : EqDecision exn.
Proof. solve_decision. Defined.

Global Instance result_ret : MRet result := fun A a => Ok a.
Global Instance result_bind : MBind result := fun A B f m =>
  match m with Ok a => f a | Raise e => Raise e end.
Global Instance result_fmap : FMap result := fun A B f m =>
  match m with Ok a => Ok (f a) | Raise e => Raise e end.

(** [for x in xs: body], the loop state passed along, stopped by the
    first exception. *)
Fixpoint for_in {S X : Type} (xs : list X) (body : S -> X -> result S)
    (s : S) : result S :=
  match xs with
  | [] => Ok s
  | x :: xs' => s' ← body s x; for_in xs' body s'
  end.

(** An attribute of a [MetadataObject]: reading one that was never
    assigned raises [AttributeError] (the code itself relies on this in
    [remote_blast] and [create_allele_file]). *)
Definition getattr {A : Type} (field : option A) : result A :=
  match field with Some a => Ok a | None => Raise AttributeError end.

(** [for x in xs: ys.append(f(x))] *)
Fixpoint for_each {X Y : Type} (f : X -> result Y) (xs : list X)
    : result (list Y) :=
  match xs with
  | [] => Ok []
  | x :: xs' => y ← f x; ys ← for_each f xs'; Ok (y :: ys)
  end.

(** [try: body except e: handler] *)
Definition try_except {A : Type} (body : result A) (e : exn)
    (handler : result A) : result A :=
  match body with
  | Ok a => Ok a
  | Raise e' => if decide (e' = e) then handler else Raise e'
  end.

(** ** Python built-ins used by the code *)

Module Py.

(** [range(lo, hi)] and [reversed(range(lo, hi))]. *)
Definition range (lo hi : Z) : list Z := seqZ lo (hi - lo).
Definition reversed {A : Type} (l : list A) : list A := reverse l.

(** [min(l)]: [ValueError] on an empty sequence. *)
Definition min (l : list Z) : result Z :=
  match l with
  | [] => Raise ValueError
  | x :: l' => Ok (foldl Z.min x l')
  end.

(** [max(l)] for the non-empty lists the code builds. *)
Definition max (l : list Z) : result Z :=
  match l with
  | [] => Raise ValueError
  | x :: l' => Ok (foldl Z.max x l')
  end.

Definition sum (l : list Z) : Z := foldr Z.add 0 l.

(** Nearest integer to [a / b] for [0 < b], ties to the even one. *)
Definition round_div (a b : Z) : Z :=
  let q := a / b in
  let r := a mod b in
  if 2 * r <? b then q
  else if b <? 2 * r then q + 1
  else if Z.even q then q else q + 1.

(** A slice bound as [PySlice_AdjustIndices] clips it. *)
Definition adjust (len i : Z) : Z :=
  if i <? 0 then Z.max 0 (i + len) else Z.min i len.

(** [l[start:stop]] *)
Definition slice {A : Type} (l : list A) (start stop : Z) : list A :=
  let len := Z.of_nat (length l) in
  let lo := adjust len start in
  let hi := adjust len stop in
  take (Z.to_nat (hi - lo)) (drop (Z.to_nat lo) l).

(** [s[start:stop]] on a string. *)
Definition str_slice (s : string) (start stop : Z) : string :=
  string_of_list_ascii (slice (list_ascii_of_string s) start stop).

Definition len (s : string) : nat := String.length s.

(** [s.ljust(width, fill)] *)
Definition ljust (s : string) (width : nat) (fill : ascii) : string :=
  s +:+ string_of_list_ascii (replicate (width - len s) fill).

(** ['{}'.format(z)] for an integer, and [int(s)] on a decimal numeral
    with an optional minus sign ([ValueError] otherwise). *)
Definition str_of_int (z : Z) : string := NilZero.string_of_int (Z.to_int z).

Definition int (s : string) : result Z :=
  match NilZero.int_of_string s with
  | Some d => Ok (Z.of_int d)
  | None => Raise ValueError
  end.

(** [s.split(sep)] for a one-character separator. *)
Fixpoint split (sep : ascii) (s : string) : list string :=
  match s with
  | EmptyString => [EmptyString]
  | String c s' =>
      if Ascii.eqb c sep then EmptyString :: split sep s'
      else match split sep s' with
           | [] => [String c EmptyString]
           | w :: ws => String c w :: ws
           end
  end.

(** [a, b = l] *)
Definition unpack2 {A : Type} (l : list A) : result (A * A) :=
  match l with
  | [a; b] => Ok (a, b)
  | _ => Raise ValueError
  end.

End Py.

(** ** The objects of the pipeline *)

(** A row of the position-specific score matrix: the tally of one
    alignment column, a dictionary from the letters of the alignment to
    their counts in that column. *)
Abbreviation tally := (gmap ascii nat).

(** [self]: the numeric arguments of the run. *)
Module Self.
Record t : Type := Build { min : Z; max : Z; cutoff : Z }.
End Self.

(** [slidingdata]: one window that passed the cutoff. *)
Module Sliding.
Record t : Type := Build {
  location : string;
  min : Z;
  mean : Z;
  sequence : string }.

(** [sliding.datastore], the attribute dictionary of the object, is
    tested for truth in [probe_location]; the four attributes are
    assigned before an object is appended, so it is never empty. *)
Definition datastore (s : t) : list string :=
  ["location"; "min"; "mean"; "sequence"]%string.
End Sliding.

(** [windowdata]: the result for one window size.  [min] is the one
    attribute that is not assigned when the object is created. *)
Module Window.
Record t : Type := Build {
  size : Z;
  max : Z;
  min : option Z;
  sliding : list Sliding.t }.
End Window.

(** [metadata]: one alignment of a sample. *)
Module Gene.
Record t : Type := Build {
  alignment : list string;
  consensus : string;
  pssm : list tally;
  identity : list Z;
  windows : list Window.t }.
End Gene.

(** [sample].  [alignedalleles] holds, for each alignment file, the
    sequences of its records; [location] is unset until
    [probe_location] assigns it. *)
Module Sample.
Record t : Type := Build {
  alleleset : gset string;
  alignedalleles : list (list string);
  gene : list Gene.t;
  location : option string;
  probeallele : gset string }.
End Sample.

(** Truth value of a list. *)
Definition truthy {A : Type} (l : list A) : bool :=
  match l with [] => false | _ => true end.

(** ** [Probes] *)

Section Interpreter.

(** [generator_stop] tells how the interpreter treats a [StopIteration]
    that leaves a generator body: [true] is PEP 479 (Python 3.7 and
    later, the generator's consumer gets [RuntimeError]), [false] the
    behaviour of Python 3.5 and 3.6 (the iteration just ends). *)
Variable generator_stop : bool.

(** Biopython's [SummaryInfo.dumb_consensus] and
    [SummaryInfo.pos_specific_score_matrix], functions of the alignment
    (and, for the matrix, of the consensus used as its axis). *)
Variable dumb_consensus : list string -> string.
Variable pos_specific_score_matrix : list string -> string -> list tally.

(** *** [window] *)

(** [for e in range(0, size): win.append(next(i))]; [None] when [next]
    finds the iterator exhausted. *)
Fixpoint fill {A : Type} (n : nat) (win i : list A) : option (list A * list A) :=
  match n with
  | O => Some (win, i)
  | S n' =>
      match i with
      | [] => None
      | e :: i' => fill n' (win ++ [e]) i'
      end
  end.

(** [for e in i: win = win[1:] + [e]; yield win] *)
Fixpoint slide {A : Type} (win i : list A) : list (list A) :=
  match i with
  | [] => []
  | e :: i' => let win' := tail win ++ [e] in win' :: slide win' i'
  end.

(** The windows the generator yields, in order. *)
Definition window {A : Type} (iterable : list A) (size : Z)
    : result (list (list A)) :=
  match fill (length (Py.range 0 size)) [] iterable with
  | Some (win, i) => Ok (win :: slide win i)
  | None => if generator_stop then Raise RuntimeError else Ok []
  end.

(** *** [probefinder]: reading the alignment *)

(** [AlignIO.read(file, 'fasta')]: [ValueError] when the file has no
    record or when its sequences differ in length. *)
Definition alignio_read (records : list string) : result (list string) :=
  match records with
  | [] => Raise ValueError
  | r :: _ =>
      if forallb (fun x => Nat.eqb (Py.len x) (Py.len r)) records
      then Ok records else Raise ValueError
  end.

(** [for record in records: if len(record.seq) != maxlen: ...ljust] *)
Definition pad (maxlen : nat) (record : string) : string :=
  if negb (Nat.eqb (Py.len record) maxlen)
  then Py.ljust record maxlen "."%char else record.

(** The [try]/[except ValueError] around the first [AlignIO.read]. *)
Definition read_alignment (records : list string) : result (list string) :=
  try_except (alignio_read records) ValueError
    (maxlen ← Z.to_nat <$> Py.max ((fun r => Z.of_nat (Py.len r)) <$> records);
     let records := pad maxlen <$> records in
     if forallb (fun r => Nat.eqb (Py.len r) maxlen) records
     then alignio_read records
     else Raise AssertionError).

(** *** [probefinder]: the identity of each column *)

Definition getitem (line : tally) (key : ascii) : result Z :=
  match line !! key with
  | Some n => Ok (Z.of_nat n)
  | None => Raise KeyError
  end.

(** [float('{:.2f}'.format(num / den * 100))], in hundredths. *)
Definition percent (num den : Z) : result Z :=
  if den =? 0 then Raise ZeroDivisionError
  else Ok (Py.round_div (num * 10000) den).

Definition identity_of_line (line : tally) : result Z :=
  try_except
    (bases ← (a ← getitem line "A"%char; c ← getitem line "C"%char;
              g ← getitem line "G"%char; t ← getitem line "T"%char;
              gap ← getitem line "-"%char; Ok [a; c; g; t; gap]);
     m ← Py.max (Py.slice bases 0 4);
     percent m (Py.sum bases))
    KeyError
    (bases ← (a ← getitem line "A"%char; c ← getitem line "C"%char;
              g ← getitem line "G"%char; t ← getitem line "T"%char;
              Ok [a; c; g; t]);
     m ← Py.max bases;
     percent m (Py.sum bases)).

(** [metadata.identity] *)
Definition identity (pssm : list tally) : result (list Z) :=
  for_each identity_of_line pssm.

(** *** [probefinder]: the sliding windows *)

(** [float('{:.2f}'.format(numpy.mean(window)))], in hundredths. *)
Definition mean2 (window : list Z) : Z :=
  Py.round_div (Py.sum window) (Z.of_nat (length window)).

(** ['{}:{}'.format(n, n + i)] *)
Definition format_location (n m : Z) : string :=
  Py.str_of_int n +:+ ":" +:+ Py.str_of_int m.

(** Body of [for window in windows]; the state is [windowdata],
    [passing] and the counter [n]. *)
Definition scan_window (self : Self.t) (consensus : string) (i : Z)
    (st : Window.t * bool * Z) (window : list Z)
    : result (Window.t * bool * Z) :=
  let '(windowdata, passing, n) := st in
  m ← Py.min window;
  if bool_decide (Self.cutoff self < m) then
    let slidingdata :=
      Sliding.Build (format_location n (n + i)) m (mean2 window)
        (Py.str_slice consensus n (n + i)) in
    let hi := if bool_decide (Window.max windowdata <= Sliding.mean slidingdata)
              then Sliding.mean slidingdata else Window.max windowdata in
    lo ← (if bool_decide (Sliding.mean slidingdata <= hi)
          then Ok (Sliding.mean slidingdata)
          else getattr (Window.min windowdata));
    Ok (Window.Build (Window.size windowdata) hi (Some lo)
          (Window.sliding windowdata ++ [slidingdata]), true, n + 1)
  else Ok (windowdata, passing, n + 1).

(** Body of [for i in reversed(range(self.min, self.max + 1))]; the
    state is [metadata.windows] and [passing]. *)
Definition scan_size (self : Self.t) (consensus : string) (identity : list Z)
    (st : list Window.t * bool) (i : Z) : result (list Window.t * bool) :=
  let '(windows, passing) := st in
  if negb passing then
    let windowdata := Window.Build i 0 None [] in
    ws ← window identity i;
    st' ← for_in ws (scan_window self consensus i) (windowdata, passing, 0);
    Ok (windows ++ [st'.1.1], st'.1.2)
  else Ok (windows, passing).

(** [metadata.windows] at the end of the size loop. *)
Definition probefinder_windows (self : Self.t) (consensus : string)
    (identity : list Z) : result (list Window.t) :=
  fst <$> for_in (Py.reversed (Py.range (Self.min self) (Self.max self + 1)))
            (scan_size self consensus identity) ([], false).

(** Body of [for align in sample.alignedalleles]. *)
Definition probefinder_gene (self : Self.t) (align : list string)
    : result Gene.t :=
  alignment ← read_alignment align;
  let consensus := dumb_consensus alignment in
  let pssm := pos_specific_score_matrix alignment consensus in
  ident ← identity pssm;
  windows ← probefinder_windows self consensus ident;
  Ok (Gene.Build alignment consensus pssm ident windows).

Definition probefinder_sample (self : Self.t) (sample : Sample.t)
    : result Sample.t :=
  genes ← for_each (probefinder_gene self) (Sample.alignedalleles sample);
  Ok (Sample.Build (Sample.alleleset sample) (Sample.alignedalleles sample)
        genes (Sample.location sample) (Sample.probeallele sample)).

Definition probefinder (self : Self.t) (samples : list Sample.t)
    : result (list Sample.t) :=
  for_each (probefinder_sample self) samples.

(** *** [probe_location] *)

(** Body of [for sliding in window.sliding]; the state is
    [sample.location] and [passed]. *)
Definition resolve_sliding (window : Window.t) (st : option string * bool)
    (sliding : Sliding.t) : result (option string * bool) :=
  if truthy (Sliding.datastore sliding)
     && bool_decide (Sliding.mean sliding = Window.max window) then
    lo ← getattr (Window.min window);
    if bool_decide (lo <= Sliding.mean sliding) && negb st.2
    then Ok (Some (Sliding.location sliding), true)
    else Ok st
  else Ok st.

(** Body of [for window in gene.windows]. *)
Definition resolve_window (location : option string) (window : Window.t)
    : result (option string) :=
  fst <$> for_in (Window.sliding window) (resolve_sliding window)
            (location, false).

(** Body of [for gene in sample.gene]. *)
Definition resolve_gene (location : option string) (gene : Gene.t)
    : result (option string) :=
  for_in (Gene.windows gene) resolve_window location.

Definition probe_location_sample (sample : Sample.t) : result Sample.t :=
  location ← for_in (Sample.gene sample) resolve_gene (Sample.location sample);
  Ok (Sample.Build (Sample.alleleset sample) (Sample.alignedalleles sample)
        (Sample.gene sample) location (Sample.probeallele sample)).

Definition probe_location (samples : list Sample.t) : result (list Sample.t) :=
  for_each probe_location_sample samples.

(** *** [probes] *)

(** [for allele in sample.alleleset:
       sample.probeallele.add(allele[int(start):int(stop)])]
    [int] is applied to the same two strings for every allele, so the
    outcome does not depend on the order in which the set is visited. *)
Definition extract (alleleset : gset string) (start stop : string)
    : result (gset string) :=
  if decide (alleleset = ∅) then Ok ∅
  else
    a ← Py.int start;
    b ← Py.int stop;
    Ok (set_map (fun allele => Py.str_slice allele a b) alleleset).

Definition probes_sample (sample : Sample.t) : result Sample.t :=
  location ← getattr (Sample.location sample);
  parts ← Py.unpack2 (Py.split ":"%char location);
  probeallele ← extract (Sample.alleleset sample) parts.1 parts.2;
  Ok (Sample.Build (Sample.alleleset sample) (Sample.alignedalleles sample)
        (Sample.gene sample) (Sample.location sample) probeallele).

Definition probes (samples : list Sample.t) : result (list Sample.t) :=
  for_each probes_sample samples.

(** *** [main], from [probefinder] on *)

Definition main (self : Self.t) (samples : list Sample.t)
    : result (list Sample.t) :=
  samples ← probefinder self samples;
  samples ← probe_location samples;
  probes samples.

End Interpreter.

(** ** Specification-level descriptions *)

(** The window of [n] columns that starts at column [k]. *)
Definition columns {A : Type} (l : list A) (k n : nat) : list A :=
  take n (drop k l).

(** C3 as the specification states it: the scanner does not fail,
    yields [max(0, L - s + 1)] windows, each of length [s], the window
    of index [k] covering the columns from [k] to [k + s]. *)
Definition window_claim (gs : bool) (l : list Z) (s : Z) : Prop :=
  ∃ ws, window gs l s = Ok ws
        ∧ Z.of_nat (length ws) = Z.max 0 (Z.of_nat (length l) - s + 1)
        ∧ ∀ k w, ws !! k = Some w →
                 Z.of_nat (length w) = s ∧ w = columns l k (Z.to_nat s).

(** The count of a letter in a tally, zero when the letter has no key. *)
Definition count (line : tally) (c : ascii) : Z :=
  Z.of_nat (default 0%nat (line !! c)).

(** Count of the most frequent base among A, C, G, T. *)
Definition most_frequent (line : tally) : Z :=
  Z.max (Z.max (Z.max (count line "A") (count line "C")) (count line "G"))
        (count line "T").

(** Observations of a column: the four bases and the gaps. *)
Definition observations (line : tally) : Z :=
  count line "A" + count line "C" + count line "G" + count line "T"
  + count line "-".

(** The identity the specification gives for a column, in hundredths. *)
Definition spec_identity (line : tally) : Z :=
  Py.round_div (most_frequent line * 10000) (observations line).

(** The rows on which the code computes a value: the four bases have a
    key and the column has an observation. *)
Definition countable (line : tally) : Prop :=
  is_Some (line !! "A"%char) ∧ is_Some (line !! "C"%char)
  ∧ is_Some (line !! "G"%char) ∧ is_Some (line !! "T"%char)
  ∧ 0 < observations line.

(** [sep not in s] *)
Fixpoint absent (sep : ascii) (s : string) : bool :=
  match s with
  | EmptyString => true
  | String c s' => negb (Ascii.eqb c sep) && absent sep s'
  end.

(** The start offsets of the windows of size [i]. *)
Definition offsets (identity : list Z) (i : Z) : list nat :=
  seq 0 (Z.to_nat (Z.of_nat (length identity) - i + 1)).

(** The window of size [i] at offset [k] passes the cutoff. *)
Definition passes (self : Self.t) (identity : list Z) (i : Z) (k : nat) : bool :=
  match Py.min (columns identity k (Z.to_nat i)) with
  | Ok m => bool_decide (Self.cutoff self < m)
  | Raise _ => false
  end.

(** The object recorded for the window of size [i] at offset [k]. *)
Definition sliding_at (consensus : string) (identity : list Z) (i : Z)
    (k : nat) : Sliding.t :=
  let w := columns identity k (Z.to_nat i) in
  Sliding.Build (format_location (Z.of_nat k) (Z.of_nat k + i))
    (match Py.min w with Ok m => m | Raise _ => 0 end)
    (mean2 w)
    (Py.str_slice consensus (Z.of_nat k) (Z.of_nat k + i)).

(** [windowdata] after one more passing window. *)
Definition record (wd : Window.t) (sd : Sliding.t) : Window.t :=
  Window.Build (Window.size wd) (Z.max (Window.max wd) (Sliding.mean sd))
    (Some (Sliding.mean sd)) (Window.sliding wd ++ [sd]).

(** [windowdata] at the end of the scan of size [i]. *)
Definition size_result (self : Self.t) (consensus : string)
    (identity : list Z) (i : Z) : Window.t :=
  foldl record (Window.Build i 0 None [])
    (sliding_at consensus identity i
       <$> filter (passes self identity i) (offsets identity i)).

(** The sizes that are scanned, out of the candidates in loop order. *)
Fixpoint evaluated (self : Self.t) (consensus : string) (identity : list Z)
    (sizes : list Z) : list Z :=
  match sizes with
  | [] => []
  | i :: sizes' =>
      if truthy (Window.sliding (size_result self consensus identity i))
      then [i] else i :: evaluated self consensus identity sizes'
  end.

(** The range [probes] reads from a location. *)
Definition parse_location (location : string) : result (Z * Z) :=
  parts ← Py.unpack2 (Py.split ":" location);
  start ← Py.int parts.1;
  stop ← Py.int parts.2;
  Ok (start, stop).

(** The window [probe_location] takes from one size result: the first
    one whose mean is the recorded maximum. *)
Definition winner (wd : Window.t) : option Sliding.t :=
  snd <$> list_find (fun sd => Sliding.mean sd = Window.max wd)
            (Window.sliding wd).

(** The location left by a gene: that of the winner of its last size
    result that has one, else the location found on entry. *)
Definition gene_location (location : option string) (ws : list Window.t)
    : option string :=
  foldl (fun loc wd => from_option (Some ∘ Sliding.location) loc (winner wd))
    location ws.

(** ** A stand-in for Biopython's [SummaryInfo]

    The theorems below hold for any consensus and any score matrix.
    To run the pipeline on concrete alignments the two functions are
    instantiated with the following ones, which do what Biopython does
    on an alignment of unweighted records. *)

Module Summary.

(** The letters of column [j], one per record that reaches it. *)
Definition column (alignment : list string) (j : nat) : list ascii :=
  omap (fun record => list_ascii_of_string record !! j) alignment.

Definition occurrences (c : ascii) (l : list ascii) : nat :=
  length (filter (fun x => x = c) l).

(** Every letter of the alignment is a key of every row of the matrix;
    its value is its count in the column (all weights are 1). *)
Definition pos_specific_score_matrix (alignment : list string)
    (consensus : string) : list tally :=
  let letters := mjoin (list_ascii_of_string <$> alignment) in
  (fun j => list_to_map
              ((fun c => (c, occurrences c (column alignment j))) <$> letters))
    <$> seq 0 (Py.len consensus).

(** The letter of a column: the single most frequent one when it
    reaches the threshold of 0.7 among the letters other than ['-'] and
    ['.'], else the ambiguous ['X']. *)
Definition consensus_letter (col : list ascii) : ascii :=
  let atoms := filter (fun c => c ≠ "-"%char ∧ c ≠ "."%char) col in
  let max_size := max_list ((fun c => occurrences c atoms) <$> atoms) in
  match filter (fun c => occurrences c atoms = max_size) (remove_dups atoms) with
  | [c] => if decide (7 * length atoms ≤ 10 * max_size)%nat then c else "X"%char
  | _ => "X"%char
  end.

Definition dumb_consensus (alignment : list string) : string :=
  string_of_list_ascii
    ((fun j => consensus_letter (column alignment j))
       <$> seq 0 (Py.len (default EmptyString (head alignment)))).

End Summary.

(** A gene as [probefinder] leaves it. *)
Definition scanned (gs : bool) (self : Self.t) (gene : Gene.t) : Prop :=
  identity (Gene.pssm gene) = Ok (Gene.identity gene)
  ∧ probefinder_windows gs self (Gene.consensus gene) (Gene.identity gene)
    = Ok (Gene.windows gene).

(** ** Examples *)

(** Sizes 2 and 3, cutoff 70. *)
Definition small_self : Self.t := Self.Build 2 3 7000.

(** The profile of scenario A of the specification. *)
Definition scenario_a : list Z := [10000; 10000; 10000; 6000; 6000].


(** A sample with two alignments: in the first the last column varies,
    in the second the first one. *)
Definition two_gene_sample : Sample.t :=
  Sample.Build {["ACGTA"; "ACGTC"; "TACGT"; "GACGT"]}
    [["ACGTA"; "ACGTC"]; ["TACGT"; "GACGT"]] [] None ∅.

(** A sample whose alignment has no column above 50%. *)
Definition no_probe_sample : Sample.t :=
  Sample.Build {["ACGT"; "CATG"]} [["ACGT"; "CATG"]] [] None ∅.

(** A sample with the location ['1:5'], an allele of four letters and
    two alleles that agree from offset 1 on. *)
Definition short_allele_sample : Sample.t :=
  Sample.Build {["ACGTA"; "TCGTA"; "TACG"]} [] [] (Some "1:5") ∅.

(** ** Descriptions used for the run as a whole *)

(** A sample one of whose genes has a window that passed. *)
Definition has_passing_window (sample : Sample.t) : Prop :=
  Exists (fun gene => Exists (fun wd => Window.sliding wd ≠ []) (Gene.windows gene))
    (Sample.gene sample).

(** Two samples that differ at most in their location. *)
Definition same_but_location (a b : Sample.t) : Prop :=
  Sample.alleleset b = Sample.alleleset a
  ∧ Sample.alignedalleles b = Sample.alignedalleles a
  ∧ Sample.gene b = Sample.gene a
  ∧ Sample.probeallele b = Sample.probeallele a.

(** A location that [probefinder] wrote. *)
Definition is_range (location : option string) : Prop :=
  ∃ (k : nat) (i : Z),
    location = Some (format_location (Z.of_nat k) (Z.of_nat k + i)).

(** ** The start of the run: from the FASTA file to the allele files *)

(** A record of a FASTA file: [record.id] and [record.seq]. *)
Module Fasta.
Record t : Type := Build { id : string; seq : string }.
End Fasta.

(** An HSP of a BLAST report: the aligned subject sequence and the
    number of identical positions. *)
Module Hsp.
Record t : Type := Build { sbjct : string; identities : Z }.
End Hsp.

(** [sample] as [record_extraction] creates it and as [remote_blast],
    [parse] and [create_allele_file] fill it in.  [name] and [records]
    are assigned at creation; the other attributes are unset then. *)
Module Metadata.
Record t : Type := Build {
  name : string;
  records : string;
  alleleset : option (gset string);
  blast_outputs : option string;
  allelefile : option string;
  allelefiles : option (list string) }.
End Metadata.

(** [os.path] of a POSIX system. *)
Module Os.

(** [s.startswith('/')] and [s.endswith('/')] *)
Definition startswith_sep (s : string) : bool :=
  match s with
  | String c _ => Ascii.eqb c "/"
  | EmptyString => false
  end.

Fixpoint endswith_sep (s : string) : bool :=
  match s with
  | EmptyString => false
  | String c EmptyString => Ascii.eqb c "/"
  | String _ s' => endswith_sep s'
  end.

(** [os.path.join(a, b)] *)
Definition join (a b : string) : string :=
  if startswith_sep b then b
  else if bool_decide (a = EmptyString) || endswith_sep a then a +:+ b
  else a +:+ "/" +:+ b.

End Os.

(** The text files below [self.path], by path, and the FASTA files
    written, by path, each with its records.  Opening a file for
    writing is taken to succeed. *)
Abbreviation texts := (gmap string string).
Abbreviation fastas := (gmap string (list Fasta.t)).

(** [os.path.isfile(path)] *)
Definition isfile (files : texts) (path : string) : bool :=
  bool_decide (is_Some (files !! path)).

(** An integer as a float, for the integers below [2 ^ 53] in absolute
    value. *)
Definition float_of_Z (z : Z) : PrimFloat.float :=
  if z <? 0 then PrimFloat.opp (PrimFloat.of_uint63 (Uint63.of_Z (- z)))
  else PrimFloat.of_uint63 (Uint63.of_Z z).

(** [len(sample.records) * (self.cutoff / 100)], in double precision.
    [Self.cutoff] counts hundredths: the number [self.cutoff] is the
    double nearest to it divided by 100. *)
Definition threshold (self : Self.t) (records : string) : PrimFloat.float :=
  PrimFloat.mul (float_of_Z (Z.of_nat (Py.len records)))
    (PrimFloat.div
       (PrimFloat.div (float_of_Z (Self.cutoff self)) (float_of_Z 100))
       (float_of_Z 100)).

(** ['{}_{}'.format(str(sample.name), count)] *)
Definition header (name : string) (count : Z) : string :=
  name +:+ "_" +:+ Py.str_of_int count.

(** [for x in xs: body], where the body changes the object [x] and a
    state shared by the iterations. *)
Fixpoint for_each_with {S X Y : Type} (body : S -> X -> result (S * Y))
    (s : S) (xs : list X) : result (S * list Y) :=
  match xs with
  | [] => Ok (s, [])
  | x :: xs' =>
      r ← body s x;
      rs ← for_each_with body r.1 xs';
      Ok (rs.1, r.2 :: rs.2)
  end.

Section Start.

(** Biopython's [Seq.upper]; the answer of [NCBIWWW.qblast] to the
    request for a sequence, read as text; [NCBIXML.read] on the text of
    a report, giving the HSPs of each alignment; the order in which a
    set is iterated. *)
Variable upper : string -> string.
Variable qblast : string -> result string.
Variable ncbixml_read : string -> result (list (list Hsp.t)).
Variable iter_set : gset string -> list string.

(** *** [record_extraction] *)

Definition record_extraction (file : list Fasta.t) (samples : list Metadata.t)
    : list Metadata.t :=
  foldl (fun samples record =>
           samples ++ [Metadata.Build (Fasta.id record)
                         (upper (Fasta.seq record)) None None None None])
    samples file.

(** *** [remote_blast] *)

(** Body of [for sample in self.samples]. *)
Definition remote_blast_sample (path : string) (files : texts)
    (sample : Metadata.t) : result (texts * Metadata.t) :=
  alleleset ← try_except
    (alleleset ← getattr (Metadata.alleleset sample);
     Ok (alleleset ∪ {[Metadata.records sample]}))
    AttributeError
    (Ok (∅ ∪ {[Metadata.records sample]}));
  let blast_outputs := Os.join path (Metadata.name sample +:+ "_nr.xml") in
  let sample :=
    Metadata.Build (Metadata.name sample) (Metadata.records sample)
      (Some alleleset) (Some blast_outputs)
      (Metadata.allelefile sample) (Metadata.allelefiles sample) in
  if negb (isfile files blast_outputs) then
    result ← qblast (Metadata.records sample);
    Ok (<[blast_outputs := result]> files, sample)
  else Ok (files, sample).

Definition remote_blast (path : string) (files : texts)
    (samples : list Metadata.t) : result (texts * list Metadata.t) :=
  for_each_with (remote_blast_sample path) files samples.

(** *** [parse] *)

(** Body of [for hsp in alignment.hsps]. *)
Definition parse_hsp (self : Self.t) (sample : Metadata.t) (hsp : Hsp.t)
    : result Metadata.t :=
  if bool_decide (Py.len (Hsp.sbjct hsp) = Py.len (Metadata.records sample))
     && absent "-" (Hsp.sbjct hsp) then
    if PrimFloat.leb (threshold self (Metadata.records sample))
         (float_of_Z (Hsp.identities hsp)) then
      alleleset ← getattr (Metadata.alleleset sample);
      Ok (Metadata.Build (Metadata.name sample) (Metadata.records sample)
            (Some (alleleset ∪ {[Hsp.sbjct hsp]}))
            (Metadata.blast_outputs sample)
            (Metadata.allelefile sample) (Metadata.allelefiles sample))
    else Ok sample
  else Ok sample.

(** Body of [for sample in self.samples].  A file that [isfile] has
    seen is opened, so the handler of [FileNotFoundError] is not
    entered. *)
Definition parse_sample (self : Self.t) (files : texts) (sample : Metadata.t)
    : result Metadata.t :=
  blast_outputs ← getattr (Metadata.blast_outputs sample);
  match files !! blast_outputs with
  | Some text =>
      alignments ← ncbixml_read text;
      for_in alignments
        (fun sample alignment => for_in alignment (parse_hsp self) sample)
        sample
  | None => Ok sample
  end.

Definition parse (self : Self.t) (files : texts) (samples : list Metadata.t)
    : result (list Metadata.t) :=
  for_each (parse_sample self files) samples.

(** *** [create_allele_file] *)

(** [self.allelepath] *)
Definition allelepath (path : string) : string := Os.join path "alleles".

(** [for alleleseq in sample.alleleset], the state being [fastalist]
    and [count]. *)
Definition fasta_record (name : string) (st : list Fasta.t * Z)
    (alleleseq : string) : list Fasta.t * Z :=
  let header := header name st.2 in
  let fasta := Fasta.Build header alleleseq in
  (st.1 ++ [fasta], st.2 + 1).

(** Body of [for sample in self.samples]; the state is the files
    written. *)
Definition create_allele_file_sample (path : string) (written : fastas)
    (sample : Metadata.t) : result (fastas * Metadata.t) :=
  let allelefile :=
    Os.join (allelepath path) (Metadata.name sample) +:+ "_alleles.tfa" in
  allelefiles ← try_except
    (allelefiles ← getattr (Metadata.allelefiles sample);
     Ok (allelefiles ++ [allelefile]))
    AttributeError
    (Ok ([] ++ [allelefile]));
  alleleset ← getattr (Metadata.alleleset sample);
  let fastalist :=
    (foldl (fasta_record (Metadata.name sample)) ([], 0) (iter_set alleleset)).1 in
  Ok (<[allelefile := fastalist]> written,
      Metadata.Build (Metadata.name sample) (Metadata.records sample)
        (Metadata.alleleset sample) (Metadata.blast_outputs sample)
        (Some allelefile) (Some allelefiles)).

Definition create_allele_file (path : string) (written : fastas)
    (samples : list Metadata.t) : result (fastas * list Metadata.t) :=
  for_each_with (create_allele_file_sample path) written samples.

(** *** [main], up to [create_allele_file] *)

Definition main_allele_files (self : Self.t) (path : string)
    (file : list Fasta.t) (files : texts) (written : fastas)
    : result (texts * fastas * list Metadata.t) :=
  let samples := record_extraction file [] in
  r ← remote_blast path files samples;
  samples ← parse self r.1 r.2;
  w ← create_allele_file path written samples;
  Ok (r.1, w.1, w.2).

(** *** [probes]: the records of the probe file *)

(** [for count, probe_allele in enumerate(sample.probeallele)]: the
    loop assigns [count] anew at every iteration, so that the
    [count += 1] that ends the body is not seen by the next one. *)
Definition probe_record (name : string) (alleles : list Fasta.t)
    (item : nat * string) : list Fasta.t :=
  let count := Z.of_nat item.1 in
  let header := header name count in
  let fasta := Fasta.Build header item.2 in
  let alleles := alleles ++ [fasta] in
  let count := count + 1 in
  alleles.

Definition probe_records (name : string) (probeallele : gset string)
    : list Fasta.t :=
  foldl (probe_record name) [] (imap pair (iter_set probeallele)).

End Start.

(** The HSPs whose subject [parse] adds to the allele set of a sample
    with the query [records]. *)
Definition accepted (self : Self.t) (records : string) (hsp : Hsp.t) : bool :=
  bool_decide (Py.len (Hsp.sbjct hsp) = Py.len records)
  && absent "-" (Hsp.sbjct hsp)
  && PrimFloat.leb (threshold self records) (float_of_Z (Hsp.identities hsp)).

(** The report file of a sample, and its allele file. *)
Definition report_path (path name : string) : string :=
  Os.join path (name +:+ "_nr.xml").

Definition allele_path (path name : string) : string :=
  Os.join (allelepath path) name +:+ "_alleles.tfa".

(** A sample that [remote_blast] has seen: its query is among its
    alleles and its report is on disk. *)
Definition blasted (path : string) (files : texts) (sample : Metadata.t) : Prop :=
  ∃ alleleset,
    Metadata.alleleset sample = Some alleleset
    ∧ Metadata.records sample ∈ alleleset
    ∧ Metadata.blast_outputs sample = Some (report_path path (Metadata.name sample))
    ∧ is_Some (files !! report_path path (Metadata.name sample)).

(** Every allele of the sample is as long as its query and, the query
    apart, free of gaps. *)
Definition uniform (sample : Metadata.t) : Prop :=
  ∃ alleleset,
    Metadata.alleleset sample = Some alleleset
    ∧ Metadata.records sample ∈ alleleset
    ∧ ∀ allele, allele ∈ alleleset →
        Py.len allele = Py.len (Metadata.records sample)
        ∧ (allele = Metadata.records sample ∨ absent "-" allele = true).

(** ** Properties of [window] *)

Lemma length_range (lo hi : Z) : length (Py.range lo hi) = Z.to_nat (hi - lo).
Proof. unfold Py.range. apply length_seqZ. Qed.

Lemma fill_spec {A : Type} (n : nat) (win i : list A) :
  fill n win i =
    if decide (n ≤ length i)%nat then Some (win ++ take n i, drop n i) else None.
Proof.
  revert win i. induction n as [|n IH]; intros win i; cbn [fill].
  - case_decide; [|lia]. by rewrite take_0, drop_0, app_nil_r.
  - destruct i as [|e i]; cbn [length].
    + case_decide; [lia|done].
    + rewrite IH. repeat case_decide; try lia; [|done].
      by rewrite <- app_assoc.
Qed.

Lemma length_slide {A : Type} (win i : list A) : length (slide win i) = length i.
Proof. revert win. induction i as [|e i IH]; intros win; simpl; [done|]. by rewrite IH. Qed.

Lemma lookup_slide {A : Type} (i win : list A) (k : nat) :
  win ≠ [] → (k < length i)%nat →
  slide win i !! k = Some (columns (win ++ i) (S k) (length win)).
Proof.
  unfold columns. revert win k. induction i as [|e i IH]; intros win k Hwin Hk; simpl in *; [lia|].
  destruct win as [|w win]; [done|]. simpl.
  destruct k as [|k]; simpl.
  - f_equal. rewrite drop_0.
    replace (win ++ e :: i) with ((win ++ [e]) ++ i) by (by rewrite <- app_assoc).
    rewrite take_app_length'; [done|]. rewrite length_app. simpl. lia.
  - rewrite IH; [|by destruct win|lia].
    rewrite length_app. simpl. rewrite <- app_assoc. simpl.
    by replace (length win + 1)%nat with (S (length win)) by lia.
Qed.

(** The windows of a size between 1 and the length of the profile. *)
Lemma window_in_range {A : Type} (gs : bool) (l : list A) (size : Z) :
  1 <= size <= Z.of_nat (length l) →
  window gs l size =
    Ok ((fun k => columns l k (Z.to_nat size))
          <$> seq 0 (length l - Z.to_nat size + 1)).
Proof.
  intros Hs. unfold window. rewrite length_range, fill_spec.
  replace (Z.to_nat (size - 0)) with (Z.to_nat size) by (f_equal; lia).
  case_decide; [|lia]. simpl. f_equal.
  set (n := Z.to_nat size). assert (1 ≤ n ≤ length l)%nat as Hn by lia.
  apply list_eq. intros k.
  destruct (decide (k < length l - n + 1)%nat) as [Hk|Hk].
  - rewrite list_lookup_fmap, lookup_seq_lt by done. simpl.
    destruct k as [|k]; simpl.
    + unfold columns. by rewrite drop_0.
    + rewrite lookup_slide.
      * rewrite take_drop. f_equal. f_equal. rewrite length_take. lia.
      * intros Ht. apply (f_equal length) in Ht. rewrite length_take in Ht. simpl in Ht. lia.
      * rewrite length_drop. lia.
  - rewrite !lookup_ge_None_2; [done|..].
    + rewrite length_fmap, length_seq. lia.
    + simpl. rewrite length_slide, length_drop. lia.
Qed.

(** A size above the length of the profile: [next] raises
    [StopIteration] inside the generator. *)
Lemma window_too_long {A : Type} (gs : bool) (l : list A) (size : Z) :
  Z.of_nat (length l) < size →
  window gs l size = if gs then Raise RuntimeError else Ok [].
Proof.
  intros Hs. unfold window. rewrite length_range, fill_spec.
  case_decide; [lia|done].
Qed.

(** A size of zero or less: the first window is empty. *)
Lemma window_nonpositive {A : Type} (gs : bool) (l : list A) (size : Z) :
  size <= 0 → window gs l size = Ok ([] :: slide [] l).
Proof.
  intros Hs. unfold window. rewrite length_range.
  by replace (Z.to_nat (size - 0)) with 0%nat by lia.
Qed.

(** C3 fails for the size 0 on a profile of one column: the generator
    yields two windows, the second of which has length 1.  It also fails
    for the size 2 on that profile when a [StopIteration] that leaves
    the generator is an error: the scanner raises instead of yielding
    no window. *)
Lemma window_claim_fails :
  ¬ window_claim true [10000] 0 ∧ ¬ window_claim false [10000] 0
  ∧ ¬ window_claim true [10000] 2.
Proof.
  split; [|split]; intros (ws & Hw & _ & Hk); vm_compute in Hw;
    [| |discriminate];
    injection Hw as <-; by destruct (Hk 1%nat [10000] eq_refl).
Qed.

(** C3, amended.  For a size [s] between 1 and the length [L] of the
    profile the scanner yields exactly [L - s + 1] windows, each of
    length [s], the window of index [k] covering the columns from [k]
    to [k + s]. *)
Theorem window_count_and_columns (gs : bool) (l : list Z) (s : Z) :
  1 <= s <= Z.of_nat (length l) →
  ∃ ws, window gs l s = Ok ws
        ∧ Z.of_nat (length ws) = Z.of_nat (length l) - s + 1
        ∧ ∀ k w, ws !! k = Some w →
                 Z.of_nat (length w) = s ∧ w = columns l k (Z.to_nat s).
Proof.
  intros Hs. eexists. split; [by apply window_in_range|]. split.
  - rewrite length_fmap, length_seq. lia.
  - intros k w Hk. rewrite list_lookup_fmap in Hk.
    destruct (seq _ _ !! k) as [k'|] eqn:Hseq; [|done].
    apply lookup_seq in Hseq as [-> Hlt]. simpl in Hk. injection Hk as <-.
    split; [|done]. unfold columns. rewrite length_take, length_drop. lia.
Qed.

Lemma window_count_and_columns_witness :
  ∃ ws, window true [10000; 10000; 10000; 6000; 6000] 3 = Ok ws
        ∧ Z.of_nat (length ws) = 3
        ∧ ∀ k w, ws !! k = Some w →
                 Z.of_nat (length w) = 3 ∧ w = columns [10000; 10000; 10000; 6000; 6000] k 3.
Proof.
  apply (window_count_and_columns true [10000; 10000; 10000; 6000; 6000] 3).
  simpl. lia.
Defined.

(** ** Arithmetic *)


Lemma round_div_bounds (a b lo hi : Z) :
  0 < b → lo * b <= a <= hi * b → lo <= Py.round_div a b <= hi.
Proof.
  intros Hb [Hlo Hhi]. unfold Py.round_div.
  pose proof (Z.div_mod a b ltac:(lia)) as Hdm.
  pose proof (Z.mod_pos_bound a b Hb) as Hr.
  assert (lo <= a / b) by (apply Z.div_le_lower_bound; lia).
  assert (a / b <= hi) by (apply Z.div_le_upper_bound; lia).
  destruct (decide (a / b = hi)) as [Heq|Hne].
  - assert (a mod b = 0) by nia.
    repeat case_match; lia.
  - repeat case_match; lia.
Qed.

Lemma foldl_min_spec (l : list Z) (x : Z) :
  (foldl Z.min x l = x ∨ foldl Z.min x l ∈ l)
  ∧ foldl Z.min x l <= x ∧ Forall (fun y => foldl Z.min x l <= y) l.
Proof.
  revert x. induction l as [|y l IH]; intros x; simpl.
  - split; [by left|]. split; [lia|constructor].
  - destruct (IH (Z.min x y)) as (Hin & Hle & Hall). split; [|split].
    + destruct Hin as [Hin|Hin]; [|right; by right].
      rewrite Hin. destruct (Z.min_spec x y) as [[_ ->]|[_ ->]]; [by left|right; by left].
    + lia.
    + constructor; [lia|done].
Qed.

Lemma foldl_max_spec (l : list Z) (x : Z) :
  (foldl Z.max x l = x ∨ foldl Z.max x l ∈ l)
  ∧ x <= foldl Z.max x l ∧ Forall (fun y => y <= foldl Z.max x l) l.
Proof.
  revert x. induction l as [|y l IH]; intros x; simpl.
  - split; [by left|]. split; [lia|constructor].
  - destruct (IH (Z.max x y)) as (Hin & Hle & Hall). split; [|split].
    + destruct Hin as [Hin|Hin]; [|right; by right].
      rewrite Hin. destruct (Z.max_spec x y) as [[_ ->]|[_ ->]]; [right; by left|by left].
    + lia.
    + constructor; [lia|done].
Qed.

(** [min(l)] of a non-empty list is its least element. *)
Lemma py_min_spec (l : list Z) :
  l ≠ [] → ∃ m, Py.min l = Ok m ∧ m ∈ l ∧ Forall (fun y => m <= y) l.
Proof.
  destruct l as [|x l]; [done|]. intros _. eexists. split; [done|].
  destruct (foldl_min_spec l x) as (Hin & Hle & Hall). split.
  - destruct Hin as [->|Hin]; [by left|by right].
  - by constructor.
Qed.

Lemma py_min_gt (l : list Z) (m c : Z) :
  Py.min l = Ok m → (c < m ↔ Forall (fun y => c < y) l).
Proof.
  intros Hm. destruct l as [|x l]; [done|].
  destruct (py_min_spec (x :: l)) as (m' & Hm' & Hin & Hall); [done|].
  rewrite Hm in Hm'. injection Hm' as <-. split.
  - intros Hc. eapply Forall_impl; [exact Hall|]. simpl. lia.
  - intros Hc. rewrite Forall_forall in Hc. by apply Hc.
Qed.

Lemma sum_nonneg (l : list Z) : Forall (fun y => 0 <= y) l → 0 <= Py.sum l.
Proof. induction 1; simpl; lia. Qed.

Lemma mean2_nonneg (l : list Z) :
  l ≠ [] → Forall (fun y => 0 <= y) l → 0 <= mean2 l.
Proof.
  intros Hl Hall. unfold mean2.
  assert (0 < Z.of_nat (length l)) by (destruct l; [done|simpl; lia]).
  apply (round_div_bounds _ _ 0 (Py.sum l)); [done|].
  pose proof (sum_nonneg l Hall). nia.
Qed.

(** ** The identity of a column *)

Lemma getitem_count (line : tally) (c : ascii) :
  is_Some (line !! c) → getitem line c = Ok (count line c).
Proof. intros [n Hn]. unfold getitem, count. by rewrite Hn. Qed.

Lemma getitem_missing (line : tally) (c : ascii) :
  line !! c = None → getitem line c = Raise KeyError ∧ count line c = 0.
Proof. intros Hn. unfold getitem, count. by rewrite Hn. Qed.

Lemma count_nonneg (line : tally) (c : ascii) : 0 <= count line c.
Proof. unfold count. lia. Qed.

Lemma max_of_bases (a c g t gap : Z) :
  Py.max (Py.slice [a; c; g; t; gap] 0 4) = Ok (Z.max (Z.max (Z.max a c) g) t).
Proof. reflexivity. Qed.

Lemma identity_of_line_countable (line : tally) :
  countable line → identity_of_line line = Ok (spec_identity line).
Proof.
  intros (HA & HC & HG & HT & Hobs).
  assert ((observations line =? 0) = false) as Hz by lia.
  unfold identity_of_line, spec_identity.
  rewrite (getitem_count line "A"), (getitem_count line "C"),
    (getitem_count line "G"), (getitem_count line "T") by done.
  destruct (line !! "-"%char) as [n|] eqn:Hgap.
  - rewrite (getitem_count line "-") by (by rewrite Hgap).
    cbn -[Z.mul Z.add Py.round_div count Py.slice Py.max].
    rewrite max_of_bases. cbn -[Z.mul Z.add Py.round_div count]. unfold percent.
    replace (count line "A" + (count line "C" + (count line "G" + (count line "T" + (count line "-" + 0)))))
      with (observations line) by (unfold observations; lia).
    by rewrite Hz.
  - destruct (getitem_missing line "-" Hgap) as [-> Hgap0].
    cbn -[Z.mul Z.add Py.round_div count]. unfold percent.
    replace (count line "A" + (count line "C" + (count line "G" + (count line "T" + 0))))
      with (observations line) by (unfold observations; lia).
    by rewrite Hz.
Qed.

Lemma identity_of_line_ok (line : tally) (v : Z) :
  identity_of_line line = Ok v → countable line.
Proof.
  unfold identity_of_line, countable. intros Hv.
  destruct (line !! "A"%char) as [a|] eqn:HA; [|by rewrite (proj1 (getitem_missing _ _ HA)) in Hv].
  destruct (line !! "C"%char) as [c|] eqn:HC;
    [|rewrite (getitem_count line "A"), (proj1 (getitem_missing _ _ HC)) in Hv; [done|by rewrite HA]].
  destruct (line !! "G"%char) as [g|] eqn:HG;
    [|rewrite (getitem_count line "A"), (getitem_count line "C"), (proj1 (getitem_missing _ _ HG)) in Hv;
      [done|by rewrite HC|by rewrite HA]].
  destruct (line !! "T"%char) as [t|] eqn:HT;
    [|rewrite (getitem_count line "A"), (getitem_count line "C"), (getitem_count line "G"),
        (proj1 (getitem_missing _ _ HT)) in Hv; [done|by rewrite HG|by rewrite HC|by rewrite HA]].
  repeat (split; [done|]).
  rewrite (getitem_count line "A"), (getitem_count line "C"), (getitem_count line "G"),
    (getitem_count line "T") in Hv by (by rewrite ?HA, ?HC, ?HG, ?HT).
  pose proof (count_nonneg line "A"). pose proof (count_nonneg line "C").
  pose proof (count_nonneg line "G"). pose proof (count_nonneg line "T").
  pose proof (count_nonneg line "-").
  destruct (observations line =? 0) eqn:Hz; [|unfold observations in *; lia]. exfalso.
  destruct (line !! "-"%char) as [n|] eqn:Hgap.
  - rewrite (getitem_count line "-") in Hv by (by rewrite Hgap).
    cbn -[Z.mul Z.add Py.round_div count Py.slice Py.max] in Hv.
    rewrite max_of_bases in Hv.
    cbn -[Z.mul Z.add Py.round_div count] in Hv. unfold percent in Hv.
    replace (count line "A" + (count line "C" + (count line "G" + (count line "T" + (count line "-" + 0)))))
      with (observations line) in Hv by (unfold observations; lia).
    by rewrite Hz in Hv.
  - destruct (getitem_missing line "-" Hgap) as [Hk Hgap0]. rewrite Hk in Hv.
    cbn -[Z.mul Z.add Py.round_div count] in Hv. unfold percent in Hv.
    replace (count line "A" + (count line "C" + (count line "G" + (count line "T" + 0))))
      with (observations line) in Hv by (unfold observations; lia).
    by rewrite Hz in Hv.
Qed.

Lemma most_frequent_bounds (line : tally) :
  0 <= most_frequent line <= observations line.
Proof.
  unfold most_frequent, observations.
  pose proof (count_nonneg line "A"). pose proof (count_nonneg line "C").
  pose proof (count_nonneg line "G"). pose proof (count_nonneg line "T").
  pose proof (count_nonneg line "-"). lia.
Qed.

Lemma spec_identity_bounds (line : tally) :
  0 < observations line → 0 <= spec_identity line <= 10000.
Proof.
  intros Hobs. pose proof (most_frequent_bounds line).
  apply round_div_bounds; [done|]. nia.
Qed.

Lemma for_each_ok {X Y : Type} (f : X → result Y) (xs : list X) (ys : list Y) :
  for_each f xs = Ok ys ↔ Forall2 (fun x y => f x = Ok y) xs ys.
Proof.
  revert ys. induction xs as [|x xs IH]; intros ys; simpl.
  - split; [intros [= <-]; constructor|by inversion 1].
  - destruct (f x) as [y|e] eqn:Hx; simpl.
    + destruct (for_each f xs) as [ys'|e] eqn:Hxs; simpl.
      * split.
        -- intros [= <-]. constructor; [done|by apply IH].
        -- inversion 1 as [|???? Hy Hys]; subst. apply IH in Hys.
           rewrite Hx in Hy. by simplify_eq.
      * split; [done|]. inversion 1 as [|???? Hy Hys]; subst. by apply IH in Hys.
    + split; [done|]. inversion 1 as [|???? Hy Hys]; subst. by rewrite Hx in Hy.
Qed.

Lemma for_in_app {S X : Type} (l1 l2 : list X) (body : S → X → result S) (s : S) :
  for_in (l1 ++ l2) body s = for_in l1 body s ≫= for_in l2 body.
Proof.
  revert s. induction l1 as [|x l1 IH]; intros s; simpl; [done|].
  destruct (body s x) as [s'|e]; simpl; [apply IH|done].
Qed.

Lemma identity_ok_iff (pssm : list tally) (profile : list Z) :
  identity pssm = Ok profile ↔
  Forall countable pssm ∧ profile = spec_identity <$> pssm.
Proof.
  unfold identity. rewrite for_each_ok. split.
  - intros H2. induction H2 as [|line v pssm' profile' Hv _ [IH1 IH2]]; [done|].
    split.
    + constructor; [by eapply identity_of_line_ok|done].
    + rewrite fmap_cons. f_equal; [|done].
      rewrite identity_of_line_countable in Hv by (by eapply identity_of_line_ok).
      by injection Hv.
  - intros [Hall ->]. induction Hall as [|line pssm' Hc _ IH]; [constructor|].
    rewrite fmap_cons. constructor; [by apply identity_of_line_countable|done].
Qed.

Lemma identity_bounds (pssm : list tally) (profile : list Z) :
  identity pssm = Ok profile →
  length profile = length pssm ∧ Forall (fun v => 0 <= v <= 10000) profile.
Proof.
  intros [Hall ->]%identity_ok_iff. split; [by rewrite length_fmap|].
  rewrite Forall_fmap. eapply Forall_impl; [exact Hall|].
  intros line Hc. simpl. apply spec_identity_bounds, Hc.
Qed.



(** ** Locations as text *)

Lemma int_str_of_int (z : Z) : Py.int (Py.str_of_int z) = Ok z.
Proof.
  unfold Py.int, Py.str_of_int. rewrite NilZero.isi.
  - by rewrite DecimalZ.of_to.
  - destruct z; simpl; [done| |done]. intros [= H]. by apply Unsigned.to_uint_nonnil in H.
  - destruct z; simpl; [done|done|]. intros [= H]. by apply Unsigned.to_uint_nonnil in H.
Qed.

Lemma absent_string_of_uint (d : Decimal.uint) :
  absent ":" (NilEmpty.string_of_uint d) = true.
Proof. induction d; simpl; auto. Qed.

Lemma absent_str_of_int (z : Z) : absent ":" (Py.str_of_int z) = true.
Proof.
  unfold Py.str_of_int, NilZero.string_of_int, NilZero.string_of_uint.
  destruct (Z.to_int z) as [d|d]; destruct d; simpl; auto using absent_string_of_uint.
Qed.

Lemma split_absent (sep : ascii) (s : string) :
  absent sep s = true → Py.split sep s = [s].
Proof.
  induction s as [|c s IH]; simpl; [done|].
  intros [Hc Hs]%andb_prop. apply negb_true_iff in Hc. rewrite Hc.
  by rewrite IH.
Qed.

Lemma split_app (sep : ascii) (s1 s2 : string) :
  absent sep s1 = true →
  Py.split sep (s1 +:+ String sep s2) = s1 :: Py.split sep s2.
Proof.
  induction s1 as [|c s1 IH]; cbn -[Py.split].
  - intros _. simpl. by rewrite Ascii.eqb_refl.
  - intros [Hc Hs]%andb_prop. apply negb_true_iff in Hc.
    simpl. rewrite Hc. fold (String.app s1 (String sep s2)). by rewrite IH.
Qed.

(** What [probes] reads back from a location is what [probefinder]
    wrote into it. *)
Lemma split_format_location (n m : Z) :
  Py.unpack2 (Py.split ":" (format_location n m))
  = Ok (Py.str_of_int n, Py.str_of_int m).
Proof.
  unfold format_location.
  change (":" +:+ Py.str_of_int m) with (String ":" (Py.str_of_int m)).
  rewrite split_app by apply absent_str_of_int.
  by rewrite split_absent by apply absent_str_of_int.
Qed.

Lemma format_location_inj (n m n' m' : Z) :
  format_location n m = format_location n' m' → n = n' ∧ m = m'.
Proof.
  intros Heq. pose proof (split_format_location n m) as H1.
  rewrite Heq, split_format_location in H1. injection H1 as Hn Hm.
  pose proof (int_str_of_int n) as H2. rewrite <- Hn, int_str_of_int in H2.
  pose proof (int_str_of_int m) as H3. rewrite <- Hm, int_str_of_int in H3.
  split; congruence.
Qed.

Lemma parse_format_location (n m : Z) :
  parse_location (format_location n m) = Ok (n, m).
Proof.
  unfold parse_location. rewrite split_format_location. simpl.
  by rewrite !int_str_of_int.
Qed.

(** ** The size loop of [probefinder] *)

Lemma record_sliding (wd : Window.t) (sds : list Sliding.t) :
  Window.sliding (foldl record wd sds) = Window.sliding wd ++ sds
  ∧ Window.size (foldl record wd sds) = Window.size wd
  ∧ Window.max (foldl record wd sds)
    = foldl Z.max (Window.max wd) (Sliding.mean <$> sds)
  ∧ Window.min (foldl record wd sds)
    = from_option Some (Window.min wd) (Sliding.mean <$> last sds).
Proof.
  revert wd. induction sds as [|sd sds IH]; intros wd; simpl.
  - by rewrite app_nil_r.
  - destruct (IH (record wd sd)) as (H1 & H2 & H3 & H4).
    rewrite H1, H2, H3, H4. simpl. rewrite <- app_assoc.
    split; [done|]. split; [done|]. split; [done|].
    destruct sds as [|sd' sds]; [done|].
    change (last (sd :: sd' :: sds)) with (last (sd' :: sds)).
    destruct (last (sd' :: sds)) eqn:Hlast; [done|]. by apply last_None in Hlast.
Qed.

Lemma scan_window_spec (self : Self.t) (consensus : string)
    (identity : list Z) (i : Z) (k : nat) (wd : Window.t) (p : bool) :
  columns identity k (Z.to_nat i) ≠ [] →
  scan_window self consensus i (wd, p, Z.of_nat k) (columns identity k (Z.to_nat i))
  = Ok (if passes self identity i k
        then (record wd (sliding_at consensus identity i k), true, Z.of_nat (S k))
        else (wd, p, Z.of_nat (S k))).
Proof.
  intros Hne. unfold scan_window, passes, sliding_at.
  destruct (py_min_spec _ Hne) as (m & -> & _). simpl.
  replace (Z.of_nat k + 1) with (Z.of_nat (S k)) by lia.
  case_bool_decide; [|done]. unfold record. simpl.
  case_bool_decide.
  - rewrite bool_decide_true by lia. simpl. do 3 f_equal. f_equal. lia.
  - rewrite bool_decide_true by lia. simpl. do 3 f_equal. f_equal. lia.
Qed.

Lemma scan_offsets (self : Self.t) (consensus : string) (identity : list Z)
    (i : Z) (m k0 : nat) (wd : Window.t) (p : bool) :
  1 <= i → (k0 + m + Z.to_nat i ≤ length identity + 1)%nat →
  for_in ((fun k => columns identity k (Z.to_nat i)) <$> seq k0 m)
    (scan_window self consensus i) (wd, p, Z.of_nat k0)
  = Ok (foldl record wd
          (sliding_at consensus identity i
             <$> filter (passes self identity i) (seq k0 m)),
        p || truthy (filter (passes self identity i) (seq k0 m)),
        Z.of_nat (k0 + m)).
Proof.
  intros Hi. revert k0 wd p. induction m as [|m IH]; intros k0 wd p Hlen.
  - simpl. rewrite orb_false_r. do 3 f_equal. lia.
  - cbn [seq]. rewrite fmap_cons. cbn [for_in]. rewrite scan_window_spec.
    2:{ intros Hnil. apply (f_equal length) in Hnil. unfold columns in Hnil.
        rewrite length_take, length_drop in Hnil. simpl in Hnil. lia. }
    cbn [mbind result_bind]. rewrite filter_cons.
    destruct (passes self identity i k0) eqn:Hp.
    + rewrite decide_True by done. rewrite IH by lia. cbn [fmap list_fmap foldl truthy].
      rewrite orb_true_r. do 3 f_equal. lia.
    + rewrite decide_False by (intros []). rewrite IH by lia.
      do 3 f_equal. lia.
Qed.

Lemma size_result_sliding (self : Self.t) (consensus : string)
    (identity : list Z) (i : Z) :
  Window.sliding (size_result self consensus identity i)
  = sliding_at consensus identity i
      <$> filter (passes self identity i) (offsets identity i).
Proof. unfold size_result. by rewrite (proj1 (record_sliding _ _)). Qed.

Lemma size_result_size (self : Self.t) (consensus : string)
    (identity : list Z) (i : Z) :
  Window.size (size_result self consensus identity i) = i.
Proof. unfold size_result. by rewrite (proj1 (proj2 (record_sliding _ _))). Qed.

(** One size, scanned: the outcome of the body of the size loop. *)
Lemma scan_size_spec (gs : bool) (self : Self.t) (consensus : string)
    (identity : list Z) (ws : list Window.t) (i : Z) :
  scan_size gs self consensus identity (ws, false) i
  = if decide (i <= 0) then Raise ValueError
    else if bool_decide (Z.of_nat (length identity) < i) && gs then Raise RuntimeError
    else Ok (ws ++ [size_result self consensus identity i],
             truthy (Window.sliding (size_result self consensus identity i))).
Proof.
  unfold scan_size. simpl. case_decide as Hi.
  - by rewrite window_nonpositive.
  - case_bool_decide as Hlen; simpl.
    + rewrite window_too_long by done. destruct gs; simpl; [done|].
      rewrite size_result_sliding. unfold size_result, offsets.
      by replace (Z.to_nat (Z.of_nat (length identity) - i + 1)) with 0%nat by lia.
    + rewrite window_in_range by lia. simpl.
      replace (length identity - Z.to_nat i + 1)%nat
        with (Z.to_nat (Z.of_nat (length identity) - i + 1)) by lia.
      rewrite (scan_offsets _ _ _ _ _ 0%nat) by lia. simpl.
      rewrite size_result_sliding. unfold size_result, offsets.
      do 2 f_equal. by destruct (filter _ _).
Qed.

Lemma scan_size_passing (gs : bool) (self : Self.t) (consensus : string)
    (identity : list Z) (ws : list Window.t) (sizes : list Z) :
  for_in sizes (scan_size gs self consensus identity) (ws, true) = Ok (ws, true).
Proof. induction sizes as [|i sizes IH]; simpl; [done|]. exact IH. Qed.

(** The entries of [metadata.windows], whenever the loop ends normally. *)
Lemma size_loop_ok (gs : bool) (self : Self.t) (consensus : string)
    (identity : list Z) (sizes : list Z) (ws0 ws : list Window.t) (p : bool) :
  for_in sizes (scan_size gs self consensus identity) (ws0, false) = Ok (ws, p) →
  ws = ws0 ++ (size_result self consensus identity
                 <$> evaluated self consensus identity sizes)
  ∧ Forall (fun i => 1 <= i) (evaluated self consensus identity sizes).
Proof.
  revert ws0. induction sizes as [|i sizes IH]; intros ws0; cbn [for_in evaluated].
  - intros [= <- <-]. by rewrite app_nil_r.
  - rewrite scan_size_spec. case_decide as Hi; [done|].
    destruct (bool_decide _ && gs); [done|]. cbn [mbind result_bind].
    destruct (truthy _) eqn:Hp.
    + rewrite scan_size_passing. intros [= <- <-]. split; [done|].
      constructor; [lia|constructor].
    + intros [-> Hall]%IH. rewrite <- app_assoc. split; [done|].
      constructor; [lia|done].
Qed.

Lemma probefinder_windows_ok (gs : bool) (self : Self.t) (consensus : string)
    (identity : list Z) (ws : list Window.t) :
  probefinder_windows gs self consensus identity = Ok ws →
  let sizes := Py.reversed (Py.range (Self.min self) (Self.max self + 1)) in
  ws = size_result self consensus identity
         <$> evaluated self consensus identity sizes
  ∧ Forall (fun i => 1 <= i) (evaluated self consensus identity sizes).
Proof.
  unfold probefinder_windows. intros Hws.
  destruct (for_in _ _ _) as [[ws' p]|e] eqn:Hloop; [|done].
  simpl in Hws. injection Hws as ->.
  by apply size_loop_ok in Hloop.
Qed.

(** X4.  The size loop ends normally when the smallest size is at least
    1 and no size exceeds the length of the profile (or the interpreter
    lets a [StopIteration] end the generator). *)
Lemma probefinder_windows_total (gs : bool) (self : Self.t)
    (consensus : string) (identity : list Z) :
  1 <= Self.min self →
  Self.max self <= Z.of_nat (length identity) ∨ gs = false →
  ∃ ws, probefinder_windows gs self consensus identity = Ok ws.
Proof.
  intros Hmin Hmax. unfold probefinder_windows.
  assert (∀ sizes st,
            Forall (fun i => Self.min self <= i <= Self.max self) sizes →
            ∃ st', for_in sizes (scan_size gs self consensus identity) st
                   = Ok st') as Hloop.
  { induction sizes as [|i sizes IH]; intros [ws p] Hall; [by eexists|].
    apply Forall_cons in Hall as [Hi Hall]. cbn [for_in].
    destruct p.
    - cbn [scan_size negb mbind result_bind]. by apply IH.
    - rewrite scan_size_spec. case_decide; [lia|].
      assert (bool_decide (Z.of_nat (length identity) < i) && gs = false) as ->.
      { destruct Hmax as [Hle| ->]; [|apply andb_false_r].
        rewrite bool_decide_false by lia. done. }
      cbn [mbind result_bind]. by apply IH. }
  destruct (Hloop (Py.reversed (Py.range (Self.min self) (Self.max self + 1)))
              ([], false)) as [[ws p] ->]; [|by exists ws].
  apply Forall_forall. intros i Hi. unfold Py.reversed, Py.range in Hi.
  apply elem_of_reverse, elem_of_seqZ in Hi. lia.
Qed.

(** ** Which sizes are scanned *)

Lemma evaluated_prefix (self : Self.t) (consensus : string) (identity : list Z)
    (sizes : list Z) :
  evaluated self consensus identity sizes `prefix_of` sizes.
Proof.
  induction sizes as [|i sizes IH]; simpl; [done|].
  destruct (truthy _).
  - by apply prefix_cons, prefix_nil.
  - by apply prefix_cons.
Qed.

Lemma evaluated_passing_last (self : Self.t) (consensus : string)
    (identity : list Z) (sizes : list Z) (j : nat) (i : Z) :
  evaluated self consensus identity sizes !! j = Some i →
  Window.sliding (size_result self consensus identity i) ≠ [] →
  length (evaluated self consensus identity sizes) = S j.
Proof.
  revert j. induction sizes as [|i' sizes IH]; intros j; simpl; [done|].
  destruct (truthy _) eqn:Hp.
  - destruct j as [|j]; [done|]. by destruct j.
  - destruct j as [|j]; simpl.
    + intros [= ->] Hne. by destruct (Window.sliding _).
    + intros Hj Hne. f_equal. by apply IH.
Qed.

Lemma evaluated_all (self : Self.t) (consensus : string) (identity : list Z)
    (sizes : list Z) :
  (∀ i, i ∈ evaluated self consensus identity sizes →
        Window.sliding (size_result self consensus identity i) = []) →
  evaluated self consensus identity sizes = sizes.
Proof.
  induction sizes as [|i sizes IH]; simpl; [done|].
  destruct (truthy _) eqn:Hp.
  - intros Hall. rewrite Hall in Hp by (by left). done.
  - intros Hall. f_equal. apply IH. intros i' Hi'. apply Hall. by right.
Qed.

Lemma lookup_reversed_range (lo hi : Z) (j : nat) (i : Z) :
  Py.reversed (Py.range lo hi) !! j = Some i →
  i = hi - 1 - Z.of_nat j ∧ lo <= i.
Proof.
  unfold Py.reversed, Py.range. intros Hj.
  pose proof (lookup_lt_Some _ _ _ Hj) as Hlen.
  rewrite length_reverse, length_seqZ in Hlen.
  rewrite reverse_lookup in Hj by (rewrite length_seqZ; lia).
  apply lookup_seqZ in Hj as [-> Hlt]. rewrite length_seqZ in *. lia.
Qed.

Lemma length_reversed_range (lo hi : Z) :
  Z.of_nat (length (Py.reversed (Py.range lo hi))) = Z.max 0 (hi - lo).
Proof. unfold Py.reversed, Py.range. rewrite length_reverse, length_seqZ. lia. Qed.

(** A size result with a passing window is the last one. *)
Lemma passing_entry_last (gs : bool) (self : Self.t) (consensus : string)
    (identity : list Z) (ws : list Window.t) (j : nat) (wd : Window.t) :
  probefinder_windows gs self consensus identity = Ok ws →
  ws !! j = Some wd → Window.sliding wd ≠ [] → length ws = S j.
Proof.
  intros [-> _]%probefinder_windows_ok Hj Hne.
  rewrite list_lookup_fmap in Hj.
  destruct (evaluated _ _ _ _ !! j) as [i|] eqn:Hi; [|done].
  injection Hj as <-. rewrite length_fmap. by eapply evaluated_passing_last.
Qed.

(** C4.  The entries of [metadata.windows] are those of the sizes
    [max], [max - 1], ... in this order, none below [min]; an entry
    with a passing window is the last entry, so that no smaller size is
    scanned or recorded after it; and when no entry has a passing
    window every size from [max] down to [min] has its entry. *)
Theorem largest_size_first (gs : bool) (self : Self.t) (consensus : string)
    (identity : list Z) (ws : list Window.t) :
  probefinder_windows gs self consensus identity = Ok ws →
  (∀ j wd, ws !! j = Some wd →
     Window.size wd = Self.max self - Z.of_nat j
     ∧ Self.min self <= Window.size wd)
  ∧ (∀ j wd, ws !! j = Some wd → Window.sliding wd ≠ [] → length ws = S j)
  ∧ ((∀ wd, wd ∈ ws → Window.sliding wd = []) →
     Z.of_nat (length ws) = Z.max 0 (Self.max self + 1 - Self.min self)).
Proof.
  intros Hws. split; [|split].
  - apply probefinder_windows_ok in Hws as [-> _].
    set (sizes := Py.reversed (Py.range (Self.min self) (Self.max self + 1))).
    intros j wd Hj. rewrite list_lookup_fmap in Hj.
    destruct (evaluated _ _ _ _ !! j) as [i|] eqn:Hi; [|done].
    injection Hj as <-. rewrite size_result_size.
    pose proof (evaluated_prefix self consensus identity sizes) as [rest Hrest].
    assert (sizes !! j = Some i) as Hs by (rewrite Hrest; by apply lookup_app_l_Some).
    apply lookup_reversed_range in Hs. lia.
  - intros j wd. by apply (passing_entry_last gs self consensus identity).
  - apply probefinder_windows_ok in Hws as [-> _].
    intros Hall. rewrite length_fmap, evaluated_all.
    + rewrite length_reversed_range. lia.
    + intros i Hi. apply Hall. by apply list_elem_of_fmap_2.
Qed.

Lemma largest_size_first_witness :
  ∃ ws,
    probefinder_windows true small_self "ACGTA" scenario_a = Ok ws
    ∧ (∀ j wd, ws !! j = Some wd →
         Window.size wd = 3 - Z.of_nat j ∧ 2 <= Window.size wd)
    ∧ (∀ j wd, ws !! j = Some wd → Window.sliding wd ≠ [] → length ws = S j)
    ∧ ((∀ wd, wd ∈ ws → Window.sliding wd = []) → Z.of_nat (length ws) = 2).
Proof.
  eexists. split; [vm_compute; reflexivity|].
  apply (largest_size_first true small_self "ACGTA" scenario_a).
  vm_compute. reflexivity.
Defined.

(** ** Which windows are recorded *)

Lemma elem_of_offsets (identity : list Z) (i : Z) (k : nat) :
  k ∈ offsets identity i ↔ Z.of_nat k + i <= Z.of_nat (length identity).
Proof. unfold offsets. rewrite elem_of_seq. lia. Qed.

Lemma columns_nonempty (identity : list Z) (i : Z) (k : nat) :
  1 <= i → Z.of_nat k + i <= Z.of_nat (length identity) →
  columns identity k (Z.to_nat i) ≠ [].
Proof.
  intros Hi Hk Hnil. apply (f_equal length) in Hnil. unfold columns in Hnil.
  rewrite length_take, length_drop in Hnil. simpl in Hnil. lia.
Qed.

Lemma elem_of_size_result (self : Self.t) (consensus : string)
    (identity : list Z) (i : Z) (sd : Sliding.t) :
  sd ∈ Window.sliding (size_result self consensus identity i) ↔
  ∃ k, sd = sliding_at consensus identity i k
       ∧ Z.of_nat k + i <= Z.of_nat (length identity)
       ∧ passes self identity i k = true.
Proof.
  rewrite size_result_sliding, list_elem_of_fmap.
  setoid_rewrite list_elem_of_filter. setoid_rewrite elem_of_offsets.
  setoid_rewrite Is_true_true.
  split; intros (k & Hsd & Hk1 & Hk2); exists k; auto.
Qed.

Lemma elem_of_probefinder_windows (gs : bool) (self : Self.t)
    (consensus : string) (identity : list Z) (ws : list Window.t)
    (wd : Window.t) :
  probefinder_windows gs self consensus identity = Ok ws → wd ∈ ws →
  1 <= Window.size wd
  ∧ wd = size_result self consensus identity (Window.size wd).
Proof.
  intros [-> Hall]%probefinder_windows_ok.
  intros (i & -> & Hi)%list_elem_of_fmap. rewrite size_result_size.
  rewrite Forall_forall in Hall. split; [by apply Hall|done].
Qed.

(** C5.  For every scanned size and every offset [k] at which a window
    of that size fits, the window is recorded if and only if the least
    identity in it is strictly greater than the cutoff. *)
Theorem recorded_iff_min_above_cutoff (gs : bool) (self : Self.t)
    (consensus : string) (identity : list Z) (ws : list Window.t)
    (wd : Window.t) (k : nat) :
  probefinder_windows gs self consensus identity = Ok ws → wd ∈ ws →
  Z.of_nat k + Window.size wd <= Z.of_nat (length identity) →
  ∃ m, Py.min (columns identity k (Z.to_nat (Window.size wd))) = Ok m
       ∧ ((∃ sd, sd ∈ Window.sliding wd
                 ∧ Sliding.location sd
                   = format_location (Z.of_nat k) (Z.of_nat k + Window.size wd))
          ↔ Self.cutoff self < m).
Proof.
  intros Hws Hwd Hk.
  destruct (elem_of_probefinder_windows _ _ _ _ _ _ Hws Hwd) as [Hi Heq].
  set (i := Window.size wd) in *.
  destruct (py_min_spec _ (columns_nonempty identity i k Hi Hk)) as (m & Hm & _).
  exists m. split; [done|].
  assert (passes self identity i k = bool_decide (Self.cutoff self < m)) as Hp
    by (unfold passes; by rewrite Hm).
  rewrite Heq. split.
  - intros (sd & (k' & -> & Hk' & Hp')%elem_of_size_result & Hloc).
    simpl in Hloc. apply format_location_inj in Hloc as [Hkk _].
    assert (k' = k) as -> by lia. rewrite Hp in Hp'. by apply bool_decide_eq_true in Hp'.
  - intros Hc. exists (sliding_at consensus identity i k). split; [|done].
    apply elem_of_size_result. exists k. split; [done|]. split; [done|].
    rewrite Hp. by apply bool_decide_eq_true.
Qed.

Lemma recorded_iff_min_above_cutoff_witness :
  ∃ ws wd m,
    probefinder_windows true small_self "ACGTA" scenario_a = Ok ws
    ∧ wd ∈ ws
    ∧ Py.min (columns scenario_a 1 (Z.to_nat (Window.size wd))) = Ok m
    ∧ ((∃ sd, sd ∈ Window.sliding wd
              ∧ Sliding.location sd = format_location 1 (1 + Window.size wd))
       ↔ 7000 < m).
Proof.
  eexists. eexists.
  edestruct (recorded_iff_min_above_cutoff true small_self "ACGTA" scenario_a)
    as (m & Hm & Hiff).
  - vm_compute. reflexivity.
  - by left.
  - instantiate (1 := 1%nat). vm_compute. discriminate.
  - exists m. split; [vm_compute; reflexivity|]. split; [by left|].
    split; [exact Hm|exact Hiff].
Defined.


(** C7.  The location of every recorded window, the winning one
    included, reads back as a range [(start, stop)] with
    [stop = start + size], and the slice [consensus[start:stop]] is the
    [sequence] recorded on the window. *)
Theorem sequence_is_consensus_slice (gs : bool) (self : Self.t)
    (consensus : string) (identity : list Z) (ws : list Window.t)
    (wd : Window.t) (sd : Sliding.t) :
  probefinder_windows gs self consensus identity = Ok ws →
  wd ∈ ws → sd ∈ Window.sliding wd →
  ∃ start stop,
    parse_location (Sliding.location sd) = Ok (start, stop)
    ∧ 0 <= start ∧ stop = start + Window.size wd
    ∧ stop <= Z.of_nat (length identity)
    ∧ Py.str_slice consensus start stop = Sliding.sequence sd.
Proof.
  intros Hws Hwd Hsd.
  destruct (elem_of_probefinder_windows _ _ _ _ _ _ Hws Hwd) as [Hi Heq].
  rewrite Heq in Hsd. apply elem_of_size_result in Hsd as (k & -> & Hk & _).
  exists (Z.of_nat k), (Z.of_nat k + Window.size wd). simpl.
  rewrite parse_format_location. repeat split; [lia|done].
Qed.

Lemma sequence_is_consensus_slice_witness :
  ∃ ws wd sd start stop,
    probefinder_windows true small_self "ACGTA" scenario_a = Ok ws
    ∧ wd ∈ ws ∧ sd ∈ Window.sliding wd
    ∧ parse_location (Sliding.location sd) = Ok (start, stop)
    ∧ 0 <= start ∧ stop = start + Window.size wd
    ∧ stop <= 5
    ∧ Py.str_slice "ACGTA" start stop = Sliding.sequence sd.
Proof.
  eexists. eexists. eexists.
  edestruct (sequence_is_consensus_slice true small_self "ACGTA" scenario_a)
    as (start & stop & Hparse).
  - vm_compute. reflexivity.
  - by left.
  - by left.
  - exists start, stop. split; [vm_compute; reflexivity|]. split; [by left|].
    split; [by left|]. exact Hparse.
Defined.

(** ** [probe_location] *)

Lemma resolve_sliding_step (wd : Window.t) (lo : Z) (sd : Sliding.t)
    (location : option string) (passed : bool) :
  Window.min wd = Some lo → lo <= Window.max wd →
  resolve_sliding wd (location, passed) sd
  = Ok (if bool_decide (Sliding.mean sd = Window.max wd) && negb passed
        then (Some (Sliding.location sd), true) else (location, passed)).
Proof.
  intros Hlo Hle. unfold resolve_sliding. rewrite Hlo. simpl.
  case_bool_decide as Hmean; simpl; [|done].
  rewrite bool_decide_true by lia. by destruct passed.
Qed.

Lemma resolve_sliding_loop (wd : Window.t) (lo : Z) (sds : list Sliding.t)
    (location : option string) (passed : bool) :
  Window.min wd = Some lo → lo <= Window.max wd →
  for_in sds (resolve_sliding wd) (location, passed)
  = Ok (if passed then (location, true)
        else match list_find (fun sd => Sliding.mean sd = Window.max wd) sds with
             | Some (_, sd) => (Some (Sliding.location sd), true)
             | None => (location, false)
             end).
Proof.
  intros Hlo Hle. revert location passed.
  induction sds as [|sd sds IH]; intros location passed; cbn [for_in].
  - by destruct passed.
  - rewrite (resolve_sliding_step wd lo) by done. cbn [mbind result_bind list_find].
    destruct (decide (Sliding.mean sd = Window.max wd)) as [Hmean|Hmean].
    + rewrite (bool_decide_true _ Hmean).
      destruct passed; cbn [negb andb]; by rewrite IH.
    + rewrite (bool_decide_false _ Hmean). cbn [andb].
      rewrite IH. destruct passed; [done|].
      by destruct (list_find _ sds) as [[j sd']|].
Qed.

Lemma size_result_min_max (self : Self.t) (consensus : string)
    (identity : list Z) (i : Z) :
  Window.sliding (size_result self consensus identity i) ≠ [] →
  ∃ lo, Window.min (size_result self consensus identity i) = Some lo
        ∧ lo <= Window.max (size_result self consensus identity i).
Proof.
  unfold size_result.
  set (sds := sliding_at consensus identity i <$> _).
  destruct (record_sliding (Window.Build i 0 None []) sds) as (Hs & _ & Hmax & Hmin).
  rewrite Hs, Hmax, Hmin. simpl. intros Hne.
  destruct (last sds) as [sd|] eqn:Hlast; [|by apply last_None in Hlast].
  exists (Sliding.mean sd). split; [done|].
  destruct (foldl_max_spec (Sliding.mean <$> sds) 0) as (_ & _ & Hall).
  rewrite Forall_forall in Hall. apply Hall.
  apply list_elem_of_fmap_2. apply last_Some in Hlast as [l' ->].
  apply elem_of_app. right. by left.
Qed.

Lemma resolve_window_spec (self : Self.t) (consensus : string)
    (identity : list Z) (i : Z) (location : option string) :
  resolve_window location (size_result self consensus identity i)
  = Ok (from_option (Some ∘ Sliding.location) location
          (winner (size_result self consensus identity i))).
Proof.
  unfold resolve_window, winner.
  destruct (Window.sliding (size_result self consensus identity i)) as [|sd sds] eqn:Hs.
  - done.
  - destruct (size_result_min_max self consensus identity i) as (lo & Hlo & Hle);
      [by rewrite Hs|].
    rewrite (resolve_sliding_loop _ lo) by done.
    by destruct (list_find _ _) as [[j sd']|].
Qed.

Lemma resolve_gene_spec (self : Self.t) (consensus : string)
    (identity : list Z) (sizes : list Z) (gene : Gene.t)
    (location : option string) :
  Gene.windows gene = size_result self consensus identity <$> sizes →
  resolve_gene location gene = Ok (gene_location location (Gene.windows gene)).
Proof.
  unfold resolve_gene, gene_location. intros ->. revert location.
  induction sizes as [|i sizes IH]; intros location; [done|].
  rewrite fmap_cons. cbn [for_in foldl].
  rewrite resolve_window_spec. cbn [mbind result_bind]. apply IH.
Qed.

Lemma gene_location_no_winner (location : option string) (ws : list Window.t) :
  Forall (fun wd => Window.sliding wd = []) ws →
  gene_location location ws = location.
Proof.
  unfold gene_location. intros Hall. revert location.
  induction Hall as [|wd ws Hwd _ IH]; intros location; simpl; [done|].
  rewrite IH. unfold winner. by rewrite Hwd.
Qed.

Lemma gene_location_last (location : option string) (ws : list Window.t)
    (wd : Window.t) :
  gene_location location (ws ++ [wd])
  = from_option (Some ∘ Sliding.location) (gene_location location ws) (winner wd).
Proof. unfold gene_location. by rewrite foldl_app. Qed.

(** The first offset at which a passing window satisfies [Q]. *)
Lemma list_find_filter_seq (P : nat → bool) (Q : nat → Prop)
    `{!∀ k, Decision (Q k)} (a m j k : nat) :
  list_find Q (filter P (seq a m)) = Some (j, k) →
  P k = true ∧ Q k ∧ (a ≤ k < a + m)%nat
  ∧ ∀ k', (a ≤ k' < k)%nat → P k' = true → ¬ Q k'.
Proof.
  revert a j. induction m as [|m IH]; intros a j; [done|].
  cbn [seq]. rewrite filter_cons. destruct (P a) eqn:HPa.
  - rewrite decide_True by done. cbn [list_find]. case_decide as HQa.
    + intros [= <- <-]. split; [done|]. split; [done|]. split; [lia|].
      intros k' Hk'. lia.
    + destruct (list_find Q (filter P (seq (S a) m))) as [[j' k'']|] eqn:Hfind; [|done].
      simpl. intros [= <- <-]. apply IH in Hfind as (HP & HQ & Hk & Hfirst).
      split; [done|]. split; [done|]. split; [lia|]. intros k' Hk' HPk'.
      destruct (decide (k' = a)) as [->|Hne]; [done|]. apply Hfirst; [lia|done].
  - rewrite decide_False by (intros []). intros (HP & HQ & Hk & Hfirst)%IH.
    split; [done|]. split; [done|]. split; [lia|]. intros k' Hk' HPk'.
    destruct (decide (k' = a)) as [->|Hne]; [congruence|]. apply Hfirst; [lia|done].
Qed.

(** The winner of a size result with passing windows, for a profile of
    non-negative identities: the leftmost passing window whose mean is
    the recorded maximum, which no passing window exceeds. *)
Lemma best_window (gs : bool) (self : Self.t) (consensus : string)
    (identity : list Z) (ws : list Window.t) (wd : Window.t) :
  probefinder_windows gs self consensus identity = Ok ws →
  Forall (fun v => 0 <= v) identity →
  wd ∈ ws → Window.sliding wd ≠ [] →
  let i := Window.size wd in
  let mean_at k := mean2 (columns identity k (Z.to_nat i)) in
  ∃ k : nat,
    Z.of_nat k + i <= Z.of_nat (length identity)
    ∧ passes self identity i k = true
    ∧ mean_at k = Window.max wd
    ∧ winner wd = Some (sliding_at consensus identity i k)
    ∧ ∀ k' : nat,
        Z.of_nat k' + i <= Z.of_nat (length identity) →
        passes self identity i k' = true →
        mean_at k' <= mean_at k ∧ ((k' < k)%nat → mean_at k' < mean_at k).
Proof.
  intros Hws Hnonneg Hwd Hne i mean_at.
  destruct (elem_of_probefinder_windows _ _ _ _ _ _ Hws Hwd) as [Hi Heq].
  fold i in Hi, Heq.
  (* the recorded maximum bounds every mean and is reached *)
  set (ks := filter (passes self identity i) (offsets identity i)).
  assert (Window.sliding wd = sliding_at consensus identity i <$> ks) as Hsl
    by (rewrite Heq; apply size_result_sliding).
  assert (Window.max wd = foldl Z.max 0 (mean_at <$> ks)) as Hmax.
  { rewrite Heq. unfold size_result.
    rewrite (proj1 (proj2 (proj2 (record_sliding _ _)))). simpl.
    by rewrite <- list_fmap_compose. }
  destruct (foldl_max_spec (mean_at <$> ks) 0) as (Hin & Hge & Hall).
  rewrite <- Hmax in Hin, Hge, Hall. rewrite Forall_fmap, Forall_forall in Hall.
  assert (∀ k, k ∈ ks ↔ Z.of_nat k + i <= Z.of_nat (length identity)
                         ∧ passes self identity i k = true) as Hks.
  { intros k. unfold ks. rewrite list_elem_of_filter, elem_of_offsets, Is_true_true. tauto. }
  assert (∀ k, k ∈ ks → 0 <= mean_at k) as Hpos.
  { intros k [Hk _]%Hks. apply mean2_nonneg; [by apply columns_nonempty|].
    unfold columns. by apply Forall_take, Forall_drop. }
  assert (∃ k, k ∈ ks ∧ mean_at k = Window.max wd) as (k0 & Hk0 & Hk0max).
  { destruct Hin as [Hzero|(k & -> & Hk)%list_elem_of_fmap]; [|by exists k].
    destruct ks as [|k ks'] eqn:Hkse; [by rewrite Hsl in Hne|].
    exists k. split; [by left|].
    pose proof (Hall k ltac:(by left)). pose proof (Hpos k ltac:(by left)).
    simpl in *. lia. }
  (* the loop takes the first such window *)
  destruct (list_find (fun k => mean_at k = Window.max wd) ks) as [[j k]|] eqn:Hfind.
  2:{ apply list_find_None in Hfind. rewrite Forall_forall in Hfind. by destruct (Hfind k0). }
  pose proof Hfind as Hspec. unfold ks, offsets in Hspec.
  apply list_find_filter_seq in Hspec as (HP & HQ & Hk & Hfirst).
  assert (k ∈ ks) as Hkin by (apply list_find_Some in Hfind as (Hj & _); by eapply list_elem_of_lookup_2).
  apply Hks in Hkin as [Hbound _].
  exists k. split; [done|]. split; [done|]. split; [done|]. split.
  - unfold winner. rewrite Hsl, list_find_fmap.
    unfold compose. simpl. fold mean_at.
    rewrite (list_find_ext _ (fun k => mean_at k = Window.max wd)) by done.
    by rewrite Hfind.
  - intros k' Hk' Hp'. split.
    + rewrite HQ. apply Hall. by apply Hks.
    + intros Hlt. assert (mean_at k' <= Window.max wd) by (apply Hall; by apply Hks).
      assert (mean_at k' ≠ Window.max wd) by (apply Hfirst; [lia|done]). lia.
Qed.

(** What a gene leaves in [sample.location] when one of its size results
    has a winner. *)
Lemma resolve_gene_winner (gs : bool) (self : Self.t) (gene : Gene.t)
    (wd : Window.t) (sd : Sliding.t) (location : option string) :
  probefinder_windows gs self (Gene.consensus gene) (Gene.identity gene)
    = Ok (Gene.windows gene) →
  wd ∈ Gene.windows gene → winner wd = Some sd →
  resolve_gene location gene = Ok (Some (Sliding.location sd)).
Proof.
  intros Hws Hwd Hwin.
  destruct (probefinder_windows_ok _ _ _ _ _ Hws) as [Hev _]. cbn zeta in Hev.
  rewrite (resolve_gene_spec self _ _ _ gene location Hev). f_equal.
  (* the size result with passing windows is the last one *)
  apply list_elem_of_lookup in Hwd as [n Hn].
  assert (Window.sliding wd ≠ []) as Hne
    by (intros Hnil; unfold winner in Hwin; by rewrite Hnil in Hwin).
  pose proof (passing_entry_last _ _ _ _ _ n wd Hws Hn Hne) as Hlen.
  assert (Gene.windows gene = take n (Gene.windows gene) ++ [wd]) as Hsplit.
  { rewrite <- (take_drop n (Gene.windows gene)) at 1. f_equal.
    rewrite (drop_S _ wd n Hn). rewrite drop_ge by lia. done. }
  rewrite Hsplit, gene_location_last, Hwin. done.
Qed.



(** ** Strings *)

Lemma len_list_ascii (s : string) :
  length (list_ascii_of_string s) = Py.len s.
Proof. unfold Py.len. induction s as [|c s IH]; simpl; [done|]. by rewrite IH. Qed.

Lemma len_string_of_list (l : list ascii) :
  Py.len (string_of_list_ascii l) = length l.
Proof. unfold Py.len. induction l as [|c l IH]; simpl; [done|]. by rewrite IH. Qed.

Lemma len_app (s t : string) : Py.len (s +:+ t) = (Py.len s + Py.len t)%nat.
Proof.
  unfold Py.len. induction s as [|c s IH]; [done|].
  change (String c s +:+ t) with (String c (s +:+ t)). simpl. by rewrite IH.
Qed.

Lemma app_empty_r (s : string) : s +:+ "" = s.
Proof.
  induction s as [|c s IH]; [done|].
  change (String c s +:+ "") with (String c (s +:+ "")). by rewrite IH.
Qed.

(** A slice whose end lies at or beyond the end of the sequence. *)
Lemma slice_truncates {A : Type} (l : list A) (start stop : Z) :
  0 <= start → Z.of_nat (length l) <= stop →
  Py.slice l start stop = drop (Z.to_nat start) l.
Proof.
  intros Hstart Hstop. unfold Py.slice, Py.adjust.
  destruct (Z.ltb_spec start 0); [lia|].
  destruct (Z.ltb_spec stop 0); [lia|].
  destruct (decide (start <= Z.of_nat (length l))) as [Hle|Hgt].
  - rewrite (Z.min_l start), (Z.min_r stop) by lia. apply take_ge. rewrite length_drop. lia.
  - rewrite !Z.min_r by lia. rewrite !drop_ge by lia. by rewrite take_nil.
Qed.

(** ** [probes] *)

Lemma probes_sample_spec (sample : Sample.t) (start stop : Z) :
  Sample.location sample = Some (format_location start stop) →
  probes_sample sample
  = Ok (Sample.Build (Sample.alleleset sample) (Sample.alignedalleles sample)
          (Sample.gene sample) (Sample.location sample)
          (set_map (fun allele => Py.str_slice allele start stop)
             (Sample.alleleset sample))).
Proof.
  intros Hloc. unfold probes_sample. rewrite Hloc. cbn [getattr mbind result_bind].
  rewrite split_format_location. cbn [mbind result_bind fst snd].
  unfold extract. case_decide as Hempty.
  - rewrite Hempty. cbn [mbind result_bind]. by rewrite set_map_empty.
  - by rewrite !int_str_of_int.
Qed.

(** C8.  With the location ['start:stop'], [probes] ends normally and
    the set it builds holds exactly the slices [allele[start:stop]] of
    the alleles of the sample, each once; for an allele no longer than
    [stop] the slice is what the allele has from [start] on. *)
Theorem probes_unique_slices (sample : Sample.t) (start stop : Z) :
  Sample.location sample = Some (format_location start stop) →
  ∃ sample',
    probes_sample sample = Ok sample'
    ∧ (∀ probe, probe ∈ Sample.probeallele sample' ↔
         ∃ allele, allele ∈ Sample.alleleset sample
                   ∧ probe = Py.str_slice allele start stop)
    ∧ (∀ allele, allele ∈ Sample.alleleset sample →
         0 <= start → Z.of_nat (Py.len allele) <= stop →
         list_ascii_of_string (Py.str_slice allele start stop)
         = drop (Z.to_nat start) (list_ascii_of_string allele)).
Proof.
  intros Hloc. eexists. split; [by apply probes_sample_spec|]. split.
  - intros probe. cbn [Sample.probeallele]. rewrite elem_of_map.
    split; intros (allele & H1 & H2); by exists allele.
  - intros allele _ Hstart Hstop. unfold Py.str_slice.
    rewrite list_ascii_of_string_of_list_ascii.
    apply slice_truncates; [done|]. by rewrite len_list_ascii.
Qed.

Lemma probes_unique_slices_witness :
  ∃ sample',
    probes_sample short_allele_sample = Ok sample'
    ∧ (∀ probe, probe ∈ Sample.probeallele sample' ↔
         ∃ allele, allele ∈ Sample.alleleset short_allele_sample
                   ∧ probe = Py.str_slice allele 1 5)
    ∧ (∀ allele, allele ∈ Sample.alleleset short_allele_sample →
         0 <= 1 → Z.of_nat (Py.len allele) <= 5 →
         list_ascii_of_string (Py.str_slice allele 1 5)
         = drop (Z.to_nat 1) (list_ascii_of_string allele)).
Proof.
  apply (probes_unique_slices short_allele_sample 1 5).
  reflexivity.
Defined.

(** ** Reading the alignment *)

Lemma py_max_lengths (l : list nat) :
  l ≠ [] → Py.max (Z.of_nat <$> l) = Ok (Z.of_nat (max_list l)).
Proof.
  destruct l as [|x l]; [done|]. intros _. cbn [fmap list_fmap Py.max]. f_equal.
  destruct (foldl_max_spec (Z.of_nat <$> l) (Z.of_nat x)) as (Hin & Hge & Hall).
  pose proof (max_list_elem_of (x :: l) ltac:(done)) as Hmax.
  assert (Forall (fun y => y ≤ max_list (x :: l))%nat (x :: l)) as Hle.
  { apply Forall_forall. intros y Hy. by apply max_list_elem_of_le. }
  rewrite Forall_fmap, Forall_forall in Hall.
  apply Z.le_antisymm.
  - destruct Hin as [->|(y & -> & Hy)%list_elem_of_fmap].
    + rewrite Forall_forall in Hle. pose proof (Hle x ltac:(by left)). lia.
    + rewrite Forall_forall in Hle. pose proof (Hle y ltac:(by right)). lia.
  - apply elem_of_cons in Hmax as [->|Hmax]; [done|].
    by apply (Hall (max_list (x :: l))).
Qed.

Lemma alignio_read_equal (records : list string) (n : nat) :
  records ≠ [] → Forall (fun r => Py.len r = n) records →
  alignio_read records = Ok records.
Proof.
  destruct records as [|r records]; [done|]. intros _ Hall.
  unfold alignio_read.
  assert (forallb (fun x => Nat.eqb (Py.len x) (Py.len r)) (r :: records) = true) as ->; [|done].
  apply forallb_forall. intros x Hx. apply Nat.eqb_eq.
  rewrite Forall_forall in Hall.
  rewrite (Hall x) by (by apply list_elem_of_In).
  by rewrite (Hall r) by (by left).
Qed.

Lemma alignio_read_ok (records al : list string) :
  alignio_read records = Ok al →
  al = records ∧ ∃ n, Forall (fun r => Py.len r = n) records.
Proof.
  unfold alignio_read. destruct records as [|r records]; [done|].
  destruct (forallb _ _) eqn:Hall; [|done]. intros [= <-]. split; [done|].
  exists (Py.len r). apply Forall_forall. intros x Hx.
  rewrite forallb_forall in Hall. apply Nat.eqb_eq, Hall. by apply list_elem_of_In.
Qed.

Lemma pad_spec (maxlen : nat) (record : string) :
  pad maxlen record
  = record +:+ string_of_list_ascii (replicate (maxlen - Py.len record) "."%char)
  ∧ ((Py.len record ≤ maxlen)%nat → Py.len (pad maxlen record) = maxlen).
Proof.
  unfold pad, Py.ljust. destruct (Nat.eqb_spec (Py.len record) maxlen) as [Heq|Hne]; simpl.
  - rewrite Heq, Nat.sub_diag. simpl. by rewrite app_empty_r.
  - split; [done|]. intros Hle. rewrite len_app, len_string_of_list, length_replicate. lia.
Qed.

Lemma read_alignment_spec (records : list string) :
  records ≠ [] →
  read_alignment records
  = Ok (pad (max_list (Py.len <$> records)) <$> records)
  ∧ Forall (fun r => Py.len r = max_list (Py.len <$> records))
      (pad (max_list (Py.len <$> records)) <$> records).
Proof.
  intros Hne. set (maxlen := max_list (Py.len <$> records)).
  assert (Forall (fun r => Py.len r = maxlen) (pad maxlen <$> records)) as Hpad.
  { rewrite Forall_fmap. apply Forall_forall. intros r Hr. simpl.
    apply pad_spec. apply max_list_elem_of_le. by apply list_elem_of_fmap_2. }
  split; [|done]. unfold read_alignment, try_except.
  destruct (alignio_read records) as [al|e] eqn:Hread.
  - apply alignio_read_ok in Hread as [-> [n Hall]]. f_equal.
    assert (n = maxlen) as ->.
    { assert (Py.len <$> records ≠ []) as Hlens by (by destruct records).
      apply max_list_elem_of, list_elem_of_fmap in Hlens as (x & Hx & Hin).
      fold maxlen in Hx. rewrite Forall_forall in Hall. by rewrite Hx, (Hall x). }
    rewrite <- (list_fmap_id records) at 1. apply list_fmap_ext.
    intros i r Hr. unfold pad.
    rewrite Forall_forall in Hall. rewrite (Hall r) by (by eapply list_elem_of_lookup_2).
    by rewrite Nat.eqb_refl.
  - assert (e = ValueError) as ->.
    { unfold alignio_read in Hread. destruct records; [by injection Hread|].
      destruct (forallb _ _); [done|]. by injection Hread. }
    rewrite decide_True by done.
    rewrite (list_fmap_compose Py.len Z.of_nat), py_max_lengths
      by (by destruct records).
    cbn [fmap result_fmap mbind result_bind]. rewrite Nat2Z.id. fold maxlen.
    assert (forallb (fun r => Nat.eqb (Py.len r) maxlen) (pad maxlen <$> records) = true) as ->.
    { apply forallb_forall. intros x Hx. apply Nat.eqb_eq.
      rewrite Forall_forall in Hpad. apply Hpad. by apply list_elem_of_In. }
    apply (alignio_read_equal _ maxlen); [by destruct records|done].
Qed.

Lemma read_alignment_ok (records al : list string) :
  read_alignment records = Ok al →
  Forall (fun r => Py.len r = max_list (Py.len <$> records)) al.
Proof.
  intros Hal. destruct records as [|r records]; [done|].
  destruct (read_alignment_spec (r :: records)) as [Hread Hall]; [done|].
  rewrite Hread in Hal. by injection Hal as <-.
Qed.

(** The identity of a column reads five keys of its tally. *)
Lemma identity_of_line_keys (line line' : tally) :
  (∀ c, c ∈ ["A"; "C"; "G"; "T"; "-"]%char → line !! c = line' !! c) →
  identity_of_line line = identity_of_line line'.
Proof.
  intros Hkeys. unfold identity_of_line, getitem.
  rewrite !Hkeys; [done|set_solver..].
Qed.

(** C9.  A non-empty set of records is read as the records padded on
    the right with ['.'] to the length of the longest one; whatever is
    read has rows of one length (the second reading, behind the
    [assert], raises otherwise); and the count of ['.'] in a column does
    not change the identity of the column. *)
Theorem padded_to_longest_row (records : list string) (line : tally) (n : nat) :
  (records ≠ [] →
   let maxlen := max_list (Py.len <$> records) in
   read_alignment records = Ok (pad maxlen <$> records)
   ∧ ∀ record, record ∈ records →
       pad maxlen record
       = record +:+ string_of_list_ascii
                      (replicate (maxlen - Py.len record) "."%char)
       ∧ Py.len (pad maxlen record) = maxlen)
  ∧ (∀ alignment, read_alignment records = Ok alignment →
       ∃ len, Forall (fun row => Py.len row = len) alignment)
  ∧ identity_of_line (<["."%char := n]> line) = identity_of_line line.
Proof.
  split; [|split].
  - intros Hne maxlen. split; [by apply read_alignment_spec|].
    intros record Hrec. split; [apply pad_spec|].
    apply pad_spec. apply max_list_elem_of_le. by apply list_elem_of_fmap_2.
  - intros alignment Hal. eexists. by eapply read_alignment_ok.
  - apply identity_of_line_keys. intros c Hc.
    apply lookup_insert_ne. intros <-.
    rewrite !elem_of_cons, elem_of_nil in Hc.
    by destruct Hc as [?|[?|[?|[?|[?|[]]]]]].
Qed.

Lemma padded_to_longest_row_witness :
  read_alignment ["ACG"; "A"; "AC"] = Ok ["ACG"; "A.."; "AC."].
Proof.
  apply (proj1 (padded_to_longest_row ["ACG"; "A"; "AC"] ∅ 0)).
  discriminate.
Defined.

(** ** The samples through the pipeline *)

Lemma probefinder_gene_scanned (gs : bool) (dc : list string → string)
    (pm : list string → string → list tally) (self : Self.t)
    (align : list string) (gene : Gene.t) :
  probefinder_gene gs dc pm self align = Ok gene → scanned gs self gene.
Proof.
  unfold probefinder_gene, scanned.
  destruct (read_alignment align) as [al|e]; [|done]. cbn [mbind result_bind].
  destruct (identity _) as [ident|e] eqn:Hident; [|done]. cbn [mbind result_bind].
  destruct (probefinder_windows _ _ _ _) as [ws|e] eqn:Hws; [|done].
  cbn [mbind result_bind]. by intros [= <-].
Qed.

Lemma probefinder_sample_ok (gs : bool) (dc : list string → string)
    (pm : list string → string → list tally) (self : Self.t)
    (sample sample' : Sample.t) :
  probefinder_sample gs dc pm self sample = Ok sample' →
  Sample.alleleset sample' = Sample.alleleset sample
  ∧ Sample.location sample' = Sample.location sample
  ∧ Forall (scanned gs self) (Sample.gene sample').
Proof.
  unfold probefinder_sample.
  destruct (for_each _ _) as [genes|e] eqn:Hgenes; [|done].
  cbn [mbind result_bind]. intros [= <-]. simpl. split; [done|]. split; [done|].
  apply for_each_ok in Hgenes. apply Forall_forall. intros gene Hgene.
  apply list_elem_of_lookup in Hgene as [n Hn].
  destruct (Forall2_lookup_r _ _ _ _ _ Hgenes Hn) as (align & _ & Halign).
  by eapply probefinder_gene_scanned.
Qed.

Lemma scanned_resolve (gs : bool) (self : Self.t) (gene : Gene.t)
    (location : option string) :
  scanned gs self gene →
  resolve_gene location gene = Ok (gene_location location (Gene.windows gene)).
Proof.
  intros [_ Hws]. destruct (probefinder_windows_ok _ _ _ _ _ Hws) as [Hev _].
  cbn zeta in Hev. by eapply resolve_gene_spec.
Qed.

Lemma scanned_no_passing (gs : bool) (self : Self.t) (gene : Gene.t)
    (location : option string) :
  scanned gs self gene →
  (∀ wd, wd ∈ Gene.windows gene → Window.sliding wd = []) →
  resolve_gene location gene = Ok location.
Proof.
  intros Hsc Hnone. rewrite (scanned_resolve gs self) by done.
  f_equal. apply gene_location_no_winner. by apply Forall_forall.
Qed.

Lemma resolve_genes_no_passing (gs : bool) (self : Self.t)
    (genes : list Gene.t) (location : option string) :
  Forall (scanned gs self) genes →
  (∀ gene wd, gene ∈ genes → wd ∈ Gene.windows gene → Window.sliding wd = []) →
  for_in genes resolve_gene location = Ok location.
Proof.
  intros Hsc. revert location.
  induction Hsc as [|gene genes Hg _ IH]; intros location Hnone; simpl; [done|].
  rewrite (scanned_no_passing gs self) by (try done; intros wd; apply Hnone; by left).
  simpl. apply IH. intros gene' wd Hin. apply Hnone. by right.
Qed.




(** ** When no window passes *)

(** C1 (the code departs from the claim).  When no window of any size
    passes the cutoff for any gene of a sample, [probe_location] ends
    without an exception and leaves [sample.location] unassigned; the
    read of [sample.location] in [probes] then raises
    [AttributeError], which nothing catches: the run ends with a thrown
    fault instead of a completed or skipped extraction. *)
Theorem no_probe_found_raises (gs : bool) (dc : list string → string)
    (pm : list string → string → list tally) (self : Self.t)
    (sample sample1 : Sample.t) :
  probefinder_sample gs dc pm self sample = Ok sample1 →
  Sample.location sample = None →
  (∀ gene wd, gene ∈ Sample.gene sample1 → wd ∈ Gene.windows gene →
     Window.sliding wd = []) →
  probe_location_sample sample1 = Ok sample1
  ∧ Sample.location sample1 = None
  ∧ main gs dc pm self [sample] = Raise AttributeError.
Proof.
  intros Hfind Hnone Hfail.
  destruct (probefinder_sample_ok _ _ _ _ _ _ Hfind) as (_ & Hloc & Hsc).
  rewrite Hnone in Hloc.
  assert (probe_location_sample sample1 = Ok sample1) as Hres.
  { unfold probe_location_sample.
    rewrite (resolve_genes_no_passing gs self) by done.
    cbn [mbind result_bind]. by destruct sample1. }
  split; [done|]. split; [done|].
  unfold main, probefinder, probe_location, probes. cbn [for_each].
  rewrite Hfind. cbn [for_each mbind result_bind mret result_ret].
  rewrite Hres. cbn [for_each mbind result_bind mret result_ret].
  unfold probes_sample. by rewrite Hloc.
Qed.

(** The run of C1 on [no_probe_sample]. *)
Lemma no_probe_found_raises_witness :
  main true Summary.dumb_consensus Summary.pos_specific_score_matrix
    small_self [no_probe_sample]
  = Raise AttributeError.
Proof.
  eapply no_probe_found_raises.
  - vm_compute. reflexivity.
  - reflexivity.
  - intros gene wd Hgene Hwd.
    cbn [Sample.gene] in Hgene.
    rewrite elem_of_cons, elem_of_nil in Hgene. destruct Hgene as [->|[]].
    cbn [Gene.windows] in Hwd.
    rewrite !elem_of_cons, elem_of_nil in Hwd.
    by destruct Hwd as [->|[->|[]]].
Defined.

(** ** Sizes outside the profile *)

Lemma slide_short {A : Type} (win l : list A) :
  (length win ≤ 1)%nat → slide win l = (fun e => [e]) <$> l.
Proof.
  revert win. induction l as [|e l IH]; intros win Hwin; simpl; [done|].
  assert (tail win = []) as -> by (destruct win as [|w [|w' win]]; simpl in *; [done|done|lia]).
  simpl. f_equal. by apply IH.
Qed.

(** X1.  For a size of zero or less [window] takes nothing from the
    iterator before its first [yield]: it yields the empty list, then
    one list of a single element for each element of the iterable. *)
Theorem window_size_not_positive {A : Type} (gs : bool) (l : list A) (size : Z) :
  size <= 0 → window gs l size = Ok ([] :: ((fun e => [e]) <$> l)).
Proof.
  intros Hs. rewrite window_nonpositive by done.
  by rewrite slide_short by (simpl; lia).
Qed.

Lemma window_size_not_positive_witness :
  window true [10000; 6000] (-1) = Ok [[]; [10000]; [6000]].
Proof. apply (window_size_not_positive true [10000; 6000] (-1)). lia. Defined.

Lemma reversed_range_cons (lo hi : Z) :
  lo < hi →
  Py.reversed (Py.range lo hi) = (hi - 1) :: Py.reversed (Py.range lo (hi - 1)).
Proof.
  intros Hlt. unfold Py.reversed, Py.range.
  replace (hi - lo) with (Z.of_nat (S (Z.to_nat (hi - 1 - lo)))) by lia.
  rewrite seqZ_S, reverse_snoc. f_equal; [lia|]. do 2 f_equal. lia.
Qed.

Lemma reversed_range_nil (lo hi : Z) :
  hi <= lo → Py.reversed (Py.range lo hi) = [].
Proof. intros Hle. unfold Py.reversed, Py.range. by rewrite seqZ_nil by lia. Qed.

(** X2.  When the profile has fewer columns than the largest size, the
    size loop stops with [RuntimeError] under PEP 479; on an interpreter
    that lets the generator end, every size larger than the profile gets
    a result without windows. *)
Theorem profile_shorter_than_max_size (self : Self.t) (consensus : string)
    (identity : list Z) :
  Self.min self <= Self.max self →
  Z.of_nat (length identity) < Self.max self →
  probefinder_windows true self consensus identity = Raise RuntimeError
  ∧ ∀ ws wd, probefinder_windows false self consensus identity = Ok ws →
      wd ∈ ws → Z.of_nat (length identity) < Window.size wd →
      Window.sliding wd = [].
Proof.
  intros Hrange Hlong. split.
  - unfold probefinder_windows.
    rewrite reversed_range_cons by lia. cbn [for_in].
    rewrite scan_size_spec. case_decide; [lia|].
    rewrite bool_decide_true by lia. done.
  - intros ws wd Hws Hwd Hsize.
    destruct (elem_of_probefinder_windows _ _ _ _ _ _ Hws Hwd) as [_ ->].
    rewrite size_result_sliding. unfold offsets.
    by replace (Z.to_nat _) with 0%nat by lia.
Qed.

Lemma profile_shorter_than_max_size_witness :
  probefinder_windows true small_self "AC" [10000; 10000] = Raise RuntimeError.
Proof.
  apply (profile_shorter_than_max_size small_self "AC" [10000; 10000]);
    vm_compute; [discriminate|reflexivity].
Defined.





Lemma probefinder_windows_total_witness :
  ∃ ws, probefinder_windows true small_self "ACGTA" scenario_a = Ok ws.
Proof.
  apply (probefinder_windows_total true small_self "ACGTA" scenario_a).
  - vm_compute. discriminate.
  - left. vm_compute. discriminate.
Defined.

(** ** What a size result holds *)

Lemma sum_bounds (l : list Z) (lo hi : Z) :
  Forall (fun y => lo <= y <= hi) l →
  lo * Z.of_nat (length l) <= Py.sum l <= hi * Z.of_nat (length l).
Proof. induction 1 as [|y l Hy _ IH]; simpl; [lia|]. nia. Qed.

Lemma mean2_bounds (l : list Z) (lo hi : Z) :
  l ≠ [] → Forall (fun y => lo <= y <= hi) l → lo <= mean2 l <= hi.
Proof.
  intros Hl Hall. unfold mean2.
  assert (0 < Z.of_nat (length l)) by (destruct l; [done|simpl; lia]).
  apply round_div_bounds; [done|]. by apply sum_bounds.
Qed.

Lemma slice_length {A : Type} (l : list A) (start stop : Z) :
  0 <= start → 0 <= stop →
  Z.of_nat (length (Py.slice l start stop))
  = Z.max 0 (Z.min stop (Z.of_nat (length l)) - Z.min start (Z.of_nat (length l))).
Proof.
  intros Hstart Hstop. unfold Py.slice, Py.adjust.
  destruct (Z.ltb_spec start 0); [lia|]. destruct (Z.ltb_spec stop 0); [lia|].
  rewrite length_take, length_drop. lia.
Qed.

Lemma str_slice_length (s : string) (start stop : Z) :
  0 <= start → 0 <= stop →
  Z.of_nat (Py.len (Py.str_slice s start stop))
  = Z.max 0 (Z.min stop (Z.of_nat (Py.len s)) - Z.min start (Z.of_nat (Py.len s))).
Proof.
  intros Hstart Hstop. unfold Py.str_slice.
  rewrite len_string_of_list, slice_length by done. by rewrite len_list_ascii.
Qed.

(** X5.  In every size result [windowdata.min] is the mean of the last
    window recorded, unset when none was; [windowdata.max] is not
    negative, no recorded mean exceeds it, and it is 0 or the mean of a
    recorded window. *)
Theorem window_max_and_min (gs : bool) (self : Self.t) (consensus : string)
    (identity : list Z) (ws : list Window.t) (wd : Window.t) :
  probefinder_windows gs self consensus identity = Ok ws → wd ∈ ws →
  Window.min wd = Sliding.mean <$> last (Window.sliding wd)
  ∧ 0 <= Window.max wd
  ∧ (∀ sd, sd ∈ Window.sliding wd → Sliding.mean sd <= Window.max wd)
  ∧ (Window.max wd = 0
     ∨ ∃ sd, sd ∈ Window.sliding wd ∧ Sliding.mean sd = Window.max wd).
Proof.
  intros Hws Hwd.
  destruct (elem_of_probefinder_windows _ _ _ _ _ _ Hws Hwd) as [_ Heq].
  rewrite Heq. unfold size_result.
  set (sds := sliding_at consensus identity (Window.size wd) <$> _).
  destruct (record_sliding (Window.Build (Window.size wd) 0 None []) sds)
    as (Hs & _ & Hmax & Hmin).
  rewrite Hs, Hmax, Hmin. cbn [Window.sliding Window.max Window.min app].
  destruct (foldl_max_spec (Sliding.mean <$> sds) 0) as (Hin & Hge & Hall).
  split; [by destruct (last sds)|]. split; [done|]. split.
  - intros sd Hsd. rewrite Forall_fmap, Forall_forall in Hall. by apply Hall.
  - destruct Hin as [->|(sd & Hmean & Hsd)%list_elem_of_fmap]; [by left|].
    right. by exists sd.
Qed.

Lemma window_max_and_min_witness :
  ∃ ws wd,
    probefinder_windows true (Self.Build 2 2 7000) "ACGT"
      [9000; 8000; 10000; 10000] = Ok ws
    ∧ wd ∈ ws
    ∧ Sliding.mean <$> Window.sliding wd = [8500; 9000; 10000]
    ∧ Window.min wd = Some 10000.
Proof.
  eexists. eexists.
  edestruct (window_max_and_min true (Self.Build 2 2 7000) "ACGT"
               [9000; 8000; 10000; 10000]) as (Hmin & _).
  - vm_compute. reflexivity.
  - by left.
  - split; [vm_compute; reflexivity|]. split; [by left|].
    split; [reflexivity|]. rewrite Hmin. reflexivity.
Defined.

(** X6.  A recorded window has a minimum above the cutoff and a mean
    that is at least its minimum and at most any bound of the profile;
    when the consensus is as long as the profile its sequence has as
    many letters as the window has columns. *)
Theorem recorded_window_fields (gs : bool) (self : Self.t) (consensus : string)
    (identity : list Z) (ws : list Window.t) (wd : Window.t) (sd : Sliding.t) :
  probefinder_windows gs self consensus identity = Ok ws →
  wd ∈ ws → sd ∈ Window.sliding wd →
  Self.cutoff self < Sliding.min sd
  ∧ Sliding.min sd <= Sliding.mean sd
  ∧ (∀ hi, Forall (fun v => v <= hi) identity → Sliding.mean sd <= hi)
  ∧ (Py.len consensus = length identity →
     Z.of_nat (Py.len (Sliding.sequence sd)) = Window.size wd).
Proof.
  intros Hws Hwd Hsd.
  destruct (elem_of_probefinder_windows _ _ _ _ _ _ Hws Hwd) as [Hi Heq].
  rewrite Heq in Hsd. apply elem_of_size_result in Hsd as (k & -> & Hk & Hp).
  set (i := Window.size wd) in *.
  pose proof (columns_nonempty identity i k Hi Hk) as Hne.
  destruct (py_min_spec _ Hne) as (m & Hm & Hin & Hall).
  unfold passes in Hp. rewrite Hm in Hp. apply bool_decide_eq_true in Hp.
  unfold sliding_at. cbn [Sliding.min Sliding.mean Sliding.sequence]. rewrite Hm.
  split; [done|]. split; [|split].
  - apply (mean2_bounds _ m (foldl Z.max m (columns identity k (Z.to_nat i))));
      [done|].
    destruct (foldl_max_spec (columns identity k (Z.to_nat i)) m) as (_ & _ & Hmax).
    rewrite Forall_forall in Hall, Hmax. apply Forall_forall. intros y Hy.
    split; [by apply Hall|by apply Hmax].
  - intros hi Hhi.
    apply (mean2_bounds _ m hi); [done|].
    rewrite Forall_forall in Hall. apply Forall_forall. intros y Hy.
    split; [by apply Hall|].
    rewrite Forall_forall in Hhi. apply Hhi. unfold columns in Hy.
    by apply (subseteq_drop k identity), (subseteq_take (Z.to_nat i)).
  - intros Hlen. rewrite str_slice_length by lia. lia.
Qed.

Lemma recorded_window_fields_witness :
  ∃ ws wd sd,
    probefinder_windows true small_self "ACGTA" scenario_a = Ok ws
    ∧ wd ∈ ws ∧ sd ∈ Window.sliding wd
    ∧ 7000 < Sliding.min sd
    ∧ Sliding.min sd <= Sliding.mean sd
    ∧ (∀ hi, Forall (fun v => v <= hi) scenario_a → Sliding.mean sd <= hi)
    ∧ (Py.len "ACGTA" = length scenario_a →
       Z.of_nat (Py.len (Sliding.sequence sd)) = Window.size wd).
Proof.
  eexists. eexists. eexists.
  split; [vm_compute; reflexivity|]. split; [by left|]. split; [by left|].
  apply (recorded_window_fields true small_self "ACGTA" scenario_a _ _ _ eq_refl
           (list_elem_of_here _ _) (list_elem_of_here _ _)).
Defined.

Lemma filter_seq_increasing (P : nat → bool) (a m j1 j2 k1 k2 : nat) :
  filter P (seq a m) !! j1 = Some k1 → filter P (seq a m) !! j2 = Some k2 →
  (j1 < j2)%nat → (a ≤ k1 < k2)%nat.
Proof.
  revert a j1 j2. induction m as [|m IH]; intros a j1 j2; [done|].
  cbn [seq]. rewrite filter_cons. destruct (decide (P a)) as [HP|HP].
  - destruct j1 as [|j1]; destruct j2 as [|j2]; simpl; try lia.
    + intros [= <-] H2 _.
      apply list_elem_of_lookup_2, list_elem_of_filter in H2 as [_ H2].
      apply elem_of_seq in H2. lia.
    + intros H1 H2 Hlt. destruct (IH (S a) j1 j2 H1 H2); lia.
  - intros H1 H2 Hlt. destruct (IH (S a) j1 j2 H1 H2 Hlt). lia.
Qed.

(** X7.  The recorded windows of a size are in scan order: of two
    entries of [windowdata.sliding] the later one starts further
    right. *)
Theorem recorded_windows_left_to_right (gs : bool) (self : Self.t)
    (consensus : string) (identity : list Z) (ws : list Window.t)
    (wd : Window.t) (j1 j2 : nat) (sd1 sd2 : Sliding.t) :
  probefinder_windows gs self consensus identity = Ok ws → wd ∈ ws →
  Window.sliding wd !! j1 = Some sd1 → Window.sliding wd !! j2 = Some sd2 →
  (j1 < j2)%nat →
  ∃ k1 k2 : nat,
    (k1 < k2)%nat
    ∧ Sliding.location sd1
      = format_location (Z.of_nat k1) (Z.of_nat k1 + Window.size wd)
    ∧ Sliding.location sd2
      = format_location (Z.of_nat k2) (Z.of_nat k2 + Window.size wd).
Proof.
  intros Hws Hwd H1 H2 Hlt.
  destruct (elem_of_probefinder_windows _ _ _ _ _ _ Hws Hwd) as [_ Heq].
  rewrite Heq, size_result_sliding, list_lookup_fmap in H1, H2.
  destruct (filter _ _ !! j1) as [k1|] eqn:Hk1; [|done].
  destruct (filter _ _ !! j2) as [k2|] eqn:Hk2; [|done].
  injection H1 as <-. injection H2 as <-.
  exists k1, k2. split; [|done].
  unfold offsets in Hk1, Hk2.
  by destruct (filter_seq_increasing _ _ _ _ _ _ _ Hk1 Hk2 Hlt).
Qed.

Lemma recorded_windows_left_to_right_witness :
  ∃ ws wd sd1 sd2 (k1 k2 : nat),
    probefinder_windows true (Self.Build 2 2 7000) "ACGT"
      [9000; 8000; 10000; 10000] = Ok ws
    ∧ wd ∈ ws
    ∧ Window.sliding wd !! 0%nat = Some sd1
    ∧ Window.sliding wd !! 2%nat = Some sd2
    ∧ (k1 < k2)%nat
    ∧ Sliding.location sd1
      = format_location (Z.of_nat k1) (Z.of_nat k1 + Window.size wd)
    ∧ Sliding.location sd2
      = format_location (Z.of_nat k2) (Z.of_nat k2 + Window.size wd).
Proof.
  eexists. eexists. eexists. eexists.
  edestruct (recorded_windows_left_to_right true (Self.Build 2 2 7000) "ACGT"
               [9000; 8000; 10000; 10000]) as (k1 & k2 & Hk).
  - vm_compute. reflexivity.
  - by left.
  - instantiate (2 := 0%nat). reflexivity.
  - instantiate (2 := 2%nat). reflexivity.
  - lia.
  - exists k1, k2. split; [vm_compute; reflexivity|]. split; [by left|].
    split; [reflexivity|]. split; [reflexivity|]. exact Hk.
Defined.

(** ** [probe_location] on what [probefinder] built *)

Lemma gene_location_overwrite (location : option string) (ws : list Window.t) :
  gene_location location ws
  = from_option Some location (gene_location None ws).
Proof.
  unfold gene_location. revert location.
  induction ws as [|wd ws IH]; intros location; [done|]. cbn [foldl].
  rewrite IH. rewrite (IH (from_option _ None _)).
  destruct (foldl _ None ws); [done|]. cbn [from_option].
  by destruct (winner wd).
Qed.

Lemma scanned_gene_range (gs : bool) (self : Self.t) (gene : Gene.t) :
  scanned gs self gene →
  Exists (fun wd => Window.sliding wd ≠ []) (Gene.windows gene) →
  is_range (gene_location None (Gene.windows gene)).
Proof.
  intros Hsc (wd & Hwd & Hne)%Exists_exists.
  destruct (best_window gs self (Gene.consensus gene) (Gene.identity gene)
              (Gene.windows gene) wd) as (k & _ & _ & _ & Hwin & _);
    [apply Hsc| |done|done|].
  { destruct Hsc as [Hid _]. apply identity_bounds in Hid as [_ Hb].
    eapply Forall_impl; [exact Hb|]. simpl. lia. }
  pose proof (resolve_gene_winner gs self gene wd _ None (proj2 Hsc) Hwd Hwin) as Hres.
  rewrite (scanned_resolve gs self) in Hres by done.
  injection Hres as ->. by exists k, (Window.size wd).
Qed.

Lemma scanned_gene_none (gene : Gene.t) :
  ¬ Exists (fun wd => Window.sliding wd ≠ []) (Gene.windows gene) →
  gene_location None (Gene.windows gene) = None.
Proof.
  intros Hnone. apply gene_location_no_winner.
  apply Forall_forall. intros wd Hwd.
  destruct (Window.sliding wd) eqn:Hs; [done|].
  destruct Hnone. apply Exists_exists. exists wd. by rewrite Hs.
Qed.

(** The location a sample is left with. *)
Lemma resolve_genes_spec (gs : bool) (self : Self.t) (genes : list Gene.t)
    (location : option string) :
  Forall (scanned gs self) genes →
  ∃ found,
    for_in genes resolve_gene location = Ok (from_option Some location found)
    ∧ (∀ location', for_in genes resolve_gene location'
                    = Ok (from_option Some location' found))
    ∧ (Exists (fun gene => Exists (fun wd => Window.sliding wd ≠ [])
                             (Gene.windows gene)) genes → is_range found)
    ∧ (¬ Exists (fun gene => Exists (fun wd => Window.sliding wd ≠ [])
                               (Gene.windows gene)) genes → found = None).
Proof.
  intros Hsc.
  assert (∃ found,
            (∀ location', for_in genes resolve_gene location'
                          = Ok (from_option Some location' found))
            ∧ (Exists (fun gene => Exists (fun wd => Window.sliding wd ≠ [])
                                     (Gene.windows gene)) genes → is_range found)
            ∧ (¬ Exists (fun gene => Exists (fun wd => Window.sliding wd ≠ [])
                                       (Gene.windows gene)) genes → found = None))
    as (found & Hall & Hsome & Hnone); [|by exists found].
  induction Hsc as [|gene genes Hg _ (found & Hall & Hsome & Hnone)].
  - exists None. split; [done|]. split; [by intros ?%Exists_nil|done].
  - destruct (decide (Exists (fun gene => Exists (fun wd => Window.sliding wd ≠ [])
                                (Gene.windows gene)) genes)) as [Hex|Hex].
    + exists found. split; [|split].
      * intros location'. cbn [for_in].
        rewrite (scanned_resolve gs self) by done. cbn [mbind result_bind].
        rewrite Hall. destruct (Hsome Hex) as (k & i & ->). done.
      * intros _. by apply Hsome.
      * intros Hn. destruct Hn. by apply Exists_cons_tl.
    + rewrite (Hnone Hex) in Hall.
      exists (gene_location None (Gene.windows gene)). split; [|split].
      * intros location'. cbn [for_in].
        rewrite (scanned_resolve gs self) by done. cbn [mbind result_bind].
        rewrite Hall. cbn [from_option]. by rewrite gene_location_overwrite.
      * intros [Hhd|Htl]%Exists_cons; [|done]. by eapply scanned_gene_range.
      * intros Hn. apply scanned_gene_none. intros Hhd. apply Hn.
        by apply Exists_cons_hd.
Qed.

Lemma probe_location_sample_spec (gs : bool) (self : Self.t) (sample : Sample.t) :
  Forall (scanned gs self) (Sample.gene sample) →
  ∃ sample',
    probe_location_sample sample = Ok sample'
    ∧ same_but_location sample sample'
    ∧ probe_location_sample sample' = Ok sample'
    ∧ (has_passing_window sample → is_range (Sample.location sample'))
    ∧ (¬ has_passing_window sample →
       Sample.location sample' = Sample.location sample).
Proof.
  intros Hsc.
  destruct (resolve_genes_spec gs self _ (Sample.location sample) Hsc)
    as (found & Hloc & Hall & Hsome & Hnone).
  eexists. unfold probe_location_sample at 1. rewrite Hloc.
  cbn [mbind result_bind]. split; [done|]. split; [done|]. split; [|split].
  - unfold probe_location_sample. cbn [Sample.gene Sample.location].
    rewrite Hall. cbn [mbind result_bind Sample.alleleset Sample.alignedalleles
                         Sample.probeallele].
    by destruct found.
  - intros Hex. cbn [Sample.location].
    destruct (Hsome Hex) as (k & i & ->). by exists k, i.
  - intros Hn. cbn [Sample.location]. by rewrite (Hnone Hn).
Qed.

Lemma probefinder_ok (gs : bool) (dc : list string → string)
    (pm : list string → string → list tally) (self : Self.t)
    (samples samples1 : list Sample.t) :
  probefinder gs dc pm self samples = Ok samples1 →
  Forall2 (fun sample sample1 =>
             Sample.alleleset sample1 = Sample.alleleset sample
             ∧ Sample.location sample1 = Sample.location sample
             ∧ Forall (scanned gs self) (Sample.gene sample1))
    samples samples1.
Proof.
  unfold probefinder. rewrite for_each_ok. intros H2.
  eapply Forall2_impl; [exact H2|]. intros sample sample1. simpl.
  apply probefinder_sample_ok.
Qed.

Lemma scanned_after_probefinder (gs : bool) (dc : list string → string)
    (pm : list string → string → list tally) (self : Self.t)
    (samples samples1 : list Sample.t) :
  probefinder gs dc pm self samples = Ok samples1 →
  Forall (fun sample1 => Forall (scanned gs self) (Sample.gene sample1)) samples1.
Proof.
  intros Hsc%probefinder_ok.
  induction Hsc as [|???? (_ & _ & H)]; by constructor.
Qed.

Lemma probe_location_scanned (gs : bool) (self : Self.t)
    (samples1 : list Sample.t) :
  Forall (fun sample1 => Forall (scanned gs self) (Sample.gene sample1)) samples1 →
  ∃ samples2,
    probe_location samples1 = Ok samples2
    ∧ Forall2 (fun sample1 sample2 =>
                 same_but_location sample1 sample2
                 ∧ probe_location_sample sample2 = Ok sample2
                 ∧ (has_passing_window sample1 →
                    is_range (Sample.location sample2))
                 ∧ (¬ has_passing_window sample1 →
                    Sample.location sample2 = Sample.location sample1))
        samples1 samples2.
Proof.
  intros Hall. unfold probe_location.
  induction Hall as [|sample1 samples1 H1 _ (samples2 & Hrest & Hspec)].
  - exists []. by split; [|constructor].
  - destruct (probe_location_sample_spec gs self sample1 H1)
      as (sample2 & Hs & Hspec1).
    exists (sample2 :: samples2). cbn [for_each]. rewrite Hs, Hrest.
    cbn [mbind result_bind]. split; [done|]. by constructor.
Qed.

(** X8.  [probe_location] does not raise on what [probefinder] built,
    and changes nothing but the locations: a sample with a passing
    window gets the text of a range, a sample without one keeps what it
    had. *)
Theorem probe_location_after_probefinder (gs : bool) (dc : list string → string)
    (pm : list string → string → list tally) (self : Self.t)
    (samples samples1 : list Sample.t) :
  probefinder gs dc pm self samples = Ok samples1 →
  ∃ samples2,
    probe_location samples1 = Ok samples2
    ∧ Forall2 same_but_location samples1 samples2
    ∧ Forall2 (fun sample1 sample2 =>
                 (has_passing_window sample1 → is_range (Sample.location sample2))
                 ∧ (¬ has_passing_window sample1 →
                    Sample.location sample2 = Sample.location sample1))
        samples1 samples2.
Proof.
  intros Hall%scanned_after_probefinder.
  destruct (probe_location_scanned gs self samples1 Hall)
    as (samples2 & Hloc & Hspec).
  exists samples2. split; [done|].
  split; (eapply Forall2_impl; [exact Hspec|]);
    intros sample1 sample2 (Hsame & _ & Hsome & Hnone); [done|by split].
Qed.

Lemma probe_location_after_probefinder_witness :
  ∃ samples1 samples2,
    probefinder true Summary.dumb_consensus Summary.pos_specific_score_matrix
      small_self [two_gene_sample; no_probe_sample] = Ok samples1
    ∧ probe_location samples1 = Ok samples2
    ∧ Forall2 same_but_location samples1 samples2.
Proof.
  eexists.
  edestruct (probe_location_after_probefinder true Summary.dumb_consensus
               Summary.pos_specific_score_matrix small_self
               [two_gene_sample; no_probe_sample])
    as (samples2 & Hloc & Hsame & _).
  - vm_compute. reflexivity.
  - exists samples2. split; [vm_compute; reflexivity|]. by split.
Defined.

(** X9.  A second run of [probe_location], on the result of the first,
    ends normally and changes nothing. *)
Theorem probe_location_twice (gs : bool) (dc : list string → string)
    (pm : list string → string → list tally) (self : Self.t)
    (samples samples1 samples2 : list Sample.t) :
  probefinder gs dc pm self samples = Ok samples1 →
  probe_location samples1 = Ok samples2 →
  probe_location samples2 = Ok samples2.
Proof.
  intros Hall%scanned_after_probefinder Hloc.
  destruct (probe_location_scanned gs self samples1 Hall)
    as (samples2' & Hloc' & Hspec).
  rewrite Hloc in Hloc'. injection Hloc' as <-. clear Hloc Hall.
  unfold probe_location.
  induction Hspec as [|sample1 sample2 samples1 samples2 (_ & Hagain & _) _ IH];
    [done|].
  cbn [for_each]. rewrite Hagain, IH. done.
Qed.

Lemma probe_location_twice_witness :
  ∃ samples1 samples2,
    probefinder true Summary.dumb_consensus Summary.pos_specific_score_matrix
      small_self [two_gene_sample] = Ok samples1
    ∧ probe_location samples1 = Ok samples2
    ∧ probe_location samples2 = Ok samples2.
Proof.
  eexists. eexists.
  split; [vm_compute; reflexivity|]. split; [vm_compute; reflexivity|].
  eapply (probe_location_twice true Summary.dumb_consensus
            Summary.pos_specific_score_matrix small_self [two_gene_sample]).
  - vm_compute. reflexivity.
  - vm_compute. reflexivity.
Defined.

(** ** The outcome of a run *)

Lemma for_each_raise {X Y : Type} (f : X → result Y) (xs : list X) (e : exn) :
  Forall (fun x => (∃ y, f x = Ok y) ∨ f x = Raise e) xs →
  Exists (fun x => f x = Raise e) xs →
  for_each f xs = Raise e.
Proof.
  intros Hall. induction Hall as [|x xs Hx _ IH]; [by intros ?%Exists_nil|].
  intros Hex. cbn [for_each]. destruct Hx as [[y Hy]| ->]; [|done].
  rewrite Hy. cbn [mbind result_bind].
  apply Exists_cons in Hex as [Hhd|Htl]; [congruence|]. by rewrite IH.
Qed.

(** X10.  A run on fresh samples that gets through [probefinder] ends
    normally when every sample has a passing window, and with
    [AttributeError] when one has none. *)
Theorem main_outcome (gs : bool) (dc : list string → string)
    (pm : list string → string → list tally) (self : Self.t)
    (samples samples1 : list Sample.t) :
  probefinder gs dc pm self samples = Ok samples1 →
  Forall (fun sample => Sample.location sample = None) samples →
  (Forall has_passing_window samples1 →
   ∃ out, main gs dc pm self samples = Ok out
          ∧ Forall2 (fun sample sample' =>
                       ∃ (k : nat) (i : Z),
                         Sample.location sample'
                         = Some (format_location (Z.of_nat k) (Z.of_nat k + i))
                         ∧ Sample.probeallele sample'
                           = set_map (fun allele =>
                                        Py.str_slice allele (Z.of_nat k)
                                          (Z.of_nat k + i))
                               (Sample.alleleset sample))
               samples out)
  ∧ (Exists (fun sample1 => ¬ has_passing_window sample1) samples1 →
     main gs dc pm self samples = Raise AttributeError).
Proof.
  intros Hfind Hfresh.
  destruct (probe_location_scanned gs self samples1
              (scanned_after_probefinder _ _ _ _ _ _ Hfind))
    as (samples2 & Hloc & Hspec).
  assert (Forall2 same_but_location samples1 samples2) as Hsame
    by (eapply Forall2_impl; [exact Hspec|]; by intros ?? (? & _)).
  assert (Forall2 (fun sample1 sample2 =>
                     (has_passing_window sample1 →
                      is_range (Sample.location sample2))
                     ∧ (¬ has_passing_window sample1 →
                        Sample.location sample2 = Sample.location sample1))
            samples1 samples2) as Hlocs
    by (eapply Forall2_impl; [exact Hspec|]; by intros ?? (_ & _ & ? & ?)).
  clear Hspec.
  pose proof (probefinder_ok _ _ _ _ _ _ Hfind) as Hsc.
  unfold main. rewrite Hfind. cbn [mbind result_bind]. rewrite Hloc.
  cbn [mbind result_bind]. unfold probes. split.
  - intros Hall.
    assert (Forall2 (fun sample sample2 =>
                       Sample.alleleset sample2 = Sample.alleleset sample
                       ∧ is_range (Sample.location sample2)) samples samples2)
      as Hready.
    { clear Hfind Hloc Hfresh. revert samples2 Hsame Hlocs Hall.
      induction Hsc as [|sample sample1 samples samples1 (Hset & _ & _) _ IH];
        intros samples2 Hsame Hlocs Hall.
      - apply Forall2_nil_inv_l in Hsame as ->. constructor.
      - apply Forall2_cons_inv_l in Hsame as (sample2 & rest & Hs & Hsame & ->).
        apply Forall2_cons in Hlocs as [[Hsome _] Hlocs].
        apply Forall_cons in Hall as [Hex Hall].
        constructor; [|by apply IH].
        destruct Hs as (Hs & _). split; [congruence|by apply Hsome]. }
    clear -Hready. induction Hready as [|sample sample2 samples samples2
                                          (Hset & k & i & Hrange) _ (out & Hout & Hall)].
    + exists []. split; [done|constructor].
    + eexists. cbn [for_each]. rewrite (probes_sample_spec _ _ _ Hrange), Hout.
      cbn [mbind result_bind]. split; [done|]. constructor; [|done].
      exists k, i. cbn [Sample.location Sample.probeallele].
      split; [done|]. by rewrite Hset.
  - intros Hex. apply for_each_raise.
    + clear Hfind Hloc Hex. revert samples2 Hsame Hlocs.
      induction Hsc as [|sample sample1 samples samples1 (_ & Hl & Hg) _ IH];
        intros samples2 Hsame Hlocs.
      * apply Forall2_nil_inv_l in Hsame as ->. constructor.
      * apply Forall2_cons_inv_l in Hsame as (sample2 & rest & Hs & Hsame & ->).
        apply Forall2_cons in Hlocs as [[Hsome Hnone] Hlocs].
        apply Forall_cons in Hfresh as [Hf Hfresh].
        constructor; [|by apply IH].
        destruct (decide (has_passing_window sample1)) as [Hp|Hp].
        -- left. destruct (Hsome Hp) as (k & i & Hrange).
           eexists. by apply (probes_sample_spec _ _ _ Hrange).
        -- right. unfold probes_sample. rewrite (Hnone Hp), Hl, Hf. done.
    + clear Hfind Hloc. revert samples samples2 Hsc Hfresh Hsame Hlocs.
      induction Hex as [sample1 samples1 Hp|sample1 samples1 _ IH];
        intros samples samples2 Hsc Hfresh Hsame Hlocs.
      * apply Forall2_cons_inv_r in Hsc as (sample & rest & (_ & Hl & _) & _ & ->).
        apply Forall2_cons_inv_l in Hsame as (sample2 & rest2 & _ & _ & ->).
        apply Forall2_cons in Hlocs as [[_ Hnone] _].
        apply Forall_cons in Hfresh as [Hf _].
        apply Exists_cons_hd. unfold probes_sample.
        rewrite (Hnone Hp), Hl, Hf. done.
      * apply Forall2_cons_inv_r in Hsc as (sample & rest & _ & Hsc & ->).
        apply Forall2_cons_inv_l in Hsame as (sample2 & rest2 & _ & Hsame & ->).
        apply Forall2_cons in Hlocs as [_ Hlocs].
        apply Forall_cons in Hfresh as [_ Hfresh].
        apply Exists_cons_tl. by eapply IH.
Qed.

Lemma main_outcome_witness :
  ∃ out,
    main true Summary.dumb_consensus Summary.pos_specific_score_matrix
      small_self [two_gene_sample] = Ok out
    ∧ Forall2 (fun sample sample' =>
                 ∃ (k : nat) (i : Z),
                   Sample.location sample'
                   = Some (format_location (Z.of_nat k) (Z.of_nat k + i))
                   ∧ Sample.probeallele sample'
                     = set_map (fun allele =>
                                  Py.str_slice allele (Z.of_nat k) (Z.of_nat k + i))
                         (Sample.alleleset sample))
         [two_gene_sample] out.
Proof.
  eapply (main_outcome true Summary.dumb_consensus
            Summary.pos_specific_score_matrix small_self [two_gene_sample]).
  - vm_compute. reflexivity.
  - repeat constructor.
  - constructor; [|constructor].
    apply Exists_cons_hd. apply Exists_cons_hd. discriminate.
Defined.

(** ** Columns without a value *)

Lemma identity_of_line_cases (line : tally) :
  identity_of_line line
  = if bool_decide (is_Some (line !! "A"%char) ∧ is_Some (line !! "C"%char)
                    ∧ is_Some (line !! "G"%char) ∧ is_Some (line !! "T"%char))
    then if observations line =? 0 then Raise ZeroDivisionError
         else Ok (spec_identity line)
    else Raise KeyError.
Proof.
  case_bool_decide as Hkeys.
  - destruct (Z.eqb_spec (observations line) 0) as [Hz|Hz].
    + destruct Hkeys as (HA & HC & HG & HT).
      unfold identity_of_line.
      rewrite (getitem_count line "A"), (getitem_count line "C"),
        (getitem_count line "G"), (getitem_count line "T") by done.
      destruct (line !! "-"%char) as [n|] eqn:Hgap.
      * rewrite (getitem_count line "-") by (by rewrite Hgap).
        cbn -[Z.mul Z.add Py.round_div count Py.slice Py.max].
        rewrite max_of_bases. cbn -[Z.mul Z.add Py.round_div count]. unfold percent.
        replace (count line "A" + (count line "C" + (count line "G" + (count line "T" + (count line "-" + 0)))))
          with (observations line) by (unfold observations; lia).
        by rewrite Hz.
      * destruct (getitem_missing line "-" Hgap) as [-> Hgap0].
        cbn -[Z.mul Z.add Py.round_div count]. unfold percent.
        replace (count line "A" + (count line "C" + (count line "G" + (count line "T" + 0))))
          with (observations line) by (unfold observations; lia).
        by rewrite Hz.
    + apply identity_of_line_countable. unfold countable.
      pose proof (most_frequent_bounds line). destruct Hkeys as (?&?&?&?).
      repeat (split; [done|]). lia.
  - unfold identity_of_line.
    destruct (line !! "A"%char) as [a|] eqn:HA;
      [|by rewrite (proj1 (getitem_missing _ _ HA))].
    rewrite (getitem_count line "A") by (by rewrite HA).
    destruct (line !! "C"%char) as [c|] eqn:HC;
      [|by rewrite (proj1 (getitem_missing _ _ HC))].
    rewrite (getitem_count line "C") by (by rewrite HC).
    destruct (line !! "G"%char) as [g|] eqn:HG;
      [|by rewrite (proj1 (getitem_missing _ _ HG))].
    rewrite (getitem_count line "G") by (by rewrite HG).
    destruct (line !! "T"%char) as [t|] eqn:HT;
      [|by rewrite (proj1 (getitem_missing _ _ HT))].
    destruct Hkeys. repeat split; by eexists.
Qed.

(** X11.  The identity of a column raises [KeyError] exactly when the
    tally lacks one of the keys A, C, G and T, [ZeroDivisionError]
    exactly when these four count 0 and no gap is counted, and nothing
    else. *)
Theorem identity_of_line_raises (line : tally) (e : exn) :
  identity_of_line line = Raise e ↔
  (e = KeyError
   ∧ ∃ c, c ∈ ["A"; "C"; "G"; "T"]%char ∧ line !! c = None)
  ∨ (e = ZeroDivisionError
     ∧ (∀ c, c ∈ ["A"; "C"; "G"; "T"]%char → line !! c = Some 0%nat)
     ∧ default 0%nat (line !! "-"%char) = 0%nat).
Proof.
  rewrite identity_of_line_cases. case_bool_decide as Hkeys.
  - destruct Hkeys as ([a HA] & [c HC] & [g HG] & [t HT]).
    assert (observations line
            = Z.of_nat a + Z.of_nat c + Z.of_nat g + Z.of_nat t
              + Z.of_nat (default 0%nat (line !! "-"%char))) as Hobs
      by (unfold observations, count; by rewrite HA, HC, HG, HT).
    destruct (Z.eqb_spec (observations line) 0) as [Hz|Hz]; split.
    + intros [= <-]. right. split; [done|]. split; [|lia].
      intros x Hx. rewrite !elem_of_cons, elem_of_nil in Hx.
      destruct Hx as [->|[->|[->|[->|[]]]]]; rewrite ?HA, ?HC, ?HG, ?HT;
        f_equal; lia.
    + intros [(_ & x & Hx & Hnone)|(-> & _)]; [|done].
      rewrite !elem_of_cons, elem_of_nil in Hx.
      destruct Hx as [->|[->|[->|[->|[]]]]]; congruence.
    + done.
    + intros [(_ & x & Hx & Hnone)|(_ & Hzero & Hgap)].
      * rewrite !elem_of_cons, elem_of_nil in Hx.
        destruct Hx as [->|[->|[->|[->|[]]]]]; congruence.
      * destruct Hz. rewrite Hobs, Hgap.
        pose proof (Hzero "A"%char ltac:(set_solver)) as H1.
        pose proof (Hzero "C"%char ltac:(set_solver)) as H2.
        pose proof (Hzero "G"%char ltac:(set_solver)) as H3.
        pose proof (Hzero "T"%char ltac:(set_solver)) as H4.
        rewrite HA in H1. rewrite HC in H2. rewrite HG in H3. rewrite HT in H4.
        simplify_eq. done.
  - split.
    + intros [= <-]. left. split; [done|].
      destruct (line !! "A"%char) eqn:HA; [|exists "A"%char; split; [set_solver|done]].
      destruct (line !! "C"%char) eqn:HC; [|exists "C"%char; split; [set_solver|done]].
      destruct (line !! "G"%char) eqn:HG; [|exists "G"%char; split; [set_solver|done]].
      destruct (line !! "T"%char) eqn:HT; [|exists "T"%char; split; [set_solver|done]].
      destruct Hkeys. done.
    + intros [(-> & _)|(_ & Hzero & _)]; [done|].
      destruct Hkeys. repeat split; eexists; apply Hzero; set_solver.
Qed.

Lemma identity_of_line_raises_witness :
  identity_of_line {["A"%char := 0%nat; "C"%char := 0%nat; "G"%char := 0%nat;
                     "T"%char := 0%nat; "N"%char := 2%nat]}
  = Raise ZeroDivisionError.
Proof.
  apply identity_of_line_raises. right. split; [done|]. split; [|done].
  intros c Hc. rewrite !elem_of_cons, elem_of_nil in Hc.
  by destruct Hc as [->|[->|[->|[->|[]]]]].
Defined.

(** X12.  The two branches of the [try] agree: a tally without a key
    for the gap has the identity of the same tally with no gap counted. *)
Theorem gap_key_absent_or_zero (line : tally) :
  identity_of_line (delete "-"%char line)
  = identity_of_line (<["-"%char := 0%nat]> line).
Proof.
  rewrite !identity_of_line_cases.
  assert (∀ c, c ≠ "-"%char →
            delete "-"%char line !! c = <["-"%char := 0%nat]> line !! c) as Hkeys
    by (intros c Hc; by rewrite lookup_delete_ne, lookup_insert_ne).
  rewrite !Hkeys by done.
  assert (observations (delete "-"%char line)
          = observations (<["-"%char := 0%nat]> line)) as ->.
  { unfold observations, count. rewrite !Hkeys by done.
    by rewrite lookup_delete_eq, lookup_insert_eq. }
  assert (spec_identity (delete "-"%char line)
          = spec_identity (<["-"%char := 0%nat]> line)) as ->; [|done].
  unfold spec_identity, most_frequent, observations, count.
  rewrite !Hkeys by done. by rewrite lookup_delete_eq, lookup_insert_eq.
Qed.

(** ** More on reading the alignment *)

(** X13.  Reading an alignment raises for a file without records only,
    and then [ValueError]: the [assert] that follows the padding never
    fails. *)
Theorem read_alignment_raises (records : list string) (e : exn) :
  read_alignment records = Raise e ↔ records = [] ∧ e = ValueError.
Proof.
  split.
  - intros Hraise. destruct records as [|r records].
    + by injection Hraise as <-.
    + by rewrite (proj1 (read_alignment_spec (r :: records) ltac:(done))) in Hraise.
  - by intros [-> ->].
Qed.

Lemma read_alignment_raises_witness :
  read_alignment [] = Raise ValueError.
Proof. by apply read_alignment_raises. Defined.

(** X14.  Rows of one length are read as they are, and what has been
    read is read again unchanged. *)
Theorem read_alignment_fixed_point (records : list string) :
  (read_alignment records = Ok records ↔
   records ≠ [] ∧ ∃ n, Forall (fun r => Py.len r = n) records)
  ∧ (∀ alignment, read_alignment records = Ok alignment →
       read_alignment alignment = Ok alignment).
Proof.
  assert (∀ rows n, rows ≠ [] → Forall (fun r => Py.len r = n) rows →
                    read_alignment rows = Ok rows) as Heq.
  { intros rows n Hne Hall. unfold read_alignment.
    by rewrite (alignio_read_equal rows n). }
  split; [split|].
  - intros Hok. split; [by intros ->|].
    eexists. by eapply read_alignment_ok.
  - intros [Hne [n Hall]]. by apply (Heq records n).
  - intros alignment Hok.
    apply (Heq alignment (max_list (Py.len <$> records)));
      [|by eapply read_alignment_ok].
    destruct records as [|r records]; [done|].
    rewrite (proj1 (read_alignment_spec (r :: records) ltac:(done))) in Hok.
    by injection Hok as <-.
Qed.

Lemma read_alignment_fixed_point_witness :
  read_alignment ["ACGT"; "AC"]%string = Ok ["ACGT"; "AC.."]%string
  ∧ read_alignment ["ACGT"; "AC.."]%string = Ok ["ACGT"; "AC.."]%string.
Proof.
  split; [reflexivity|].
  by apply (proj2 (read_alignment_fixed_point ["ACGT"; "AC"]%string)).
Defined.

(** ** Locations as text, both ways *)

(** X15.  The text [probefinder] writes for the range from [n] to [m]
    is read back by [probes] as [n] and [m], whatever their signs; two
    ranges with one text are equal. *)
Theorem location_round_trip (n m n' m' : Z) :
  parse_location (format_location n m) = Ok (n, m)
  ∧ (format_location n m = format_location n' m' → n = n' ∧ m = m').
Proof.
  split; [apply parse_format_location|].
  intros Htext. pose proof (parse_format_location n m) as Hparse.
  rewrite Htext, parse_format_location in Hparse.
  by injection Hparse as <- <-.
Qed.

Lemma location_round_trip_witness :
  parse_location (format_location 3 23) = Ok (3, 23)
  ∧ (format_location 3 23 = format_location 3 23 → 3 = 3 ∧ 23 = 23).
Proof. apply (location_round_trip 3 23 3 23). Defined.

(** ** More on [probes] *)

Lemma size_list_to_set_le (l : list string) :
  (size (list_to_set l : gset string) ≤ length l)%nat.
Proof.
  induction l as [|x l IH]; [done|]. cbn [list_to_set foldr length].
  rewrite size_union_alt, size_singleton.
  assert (list_to_set l ∖ {[x]} ⊆ (list_to_set l : gset string)) as Hsub
    by (intros y Hy; apply elem_of_difference in Hy; tauto).
  apply subseteq_size in Hsub. lia.
Qed.

(** X16.  The set [probes] builds is no larger than the allele set; with
    [0 <= start <= stop] no probe is longer than [stop - start], and the
    probe of an allele of length [stop] or more has that length. *)
Theorem probe_lengths (sample : Sample.t) (start stop : Z) :
  Sample.location sample = Some (format_location start stop) →
  0 <= start <= stop →
  ∃ sample',
    probes_sample sample = Ok sample'
    ∧ (size (Sample.probeallele sample') ≤ size (Sample.alleleset sample))%nat
    ∧ (∀ probe, probe ∈ Sample.probeallele sample' →
         Z.of_nat (Py.len probe) <= stop - start)
    ∧ (∀ allele, allele ∈ Sample.alleleset sample →
         stop <= Z.of_nat (Py.len allele) →
         Z.of_nat (Py.len (Py.str_slice allele start stop)) = stop - start).
Proof.
  intros Hloc Hrange. eexists. split; [by apply probes_sample_spec|].
  cbn [Sample.probeallele]. split; [|split].
  - unfold set_map. etrans; [apply size_list_to_set_le|].
    by rewrite length_fmap.
  - intros probe (allele & -> & _)%elem_of_map.
    rewrite str_slice_length by lia. lia.
  - intros allele _ Hlen. rewrite str_slice_length by lia. lia.
Qed.

Lemma probe_lengths_witness :
  ∃ sample',
    probes_sample short_allele_sample = Ok sample'
    ∧ (size (Sample.probeallele sample')
       ≤ size (Sample.alleleset short_allele_sample))%nat
    ∧ (∀ probe, probe ∈ Sample.probeallele sample' →
         Z.of_nat (Py.len probe) <= 5 - 1)
    ∧ (∀ allele, allele ∈ Sample.alleleset short_allele_sample →
         5 <= Z.of_nat (Py.len allele) →
         Z.of_nat (Py.len (Py.str_slice allele 1 5)) = 5 - 1).
Proof.
  apply (probe_lengths short_allele_sample 1 5); [reflexivity|lia].
Defined.

(** ** [remote_blast] *)

Lemma metadata_eta (sample : Metadata.t) alleleset blast_outputs :
  Metadata.alleleset sample = alleleset →
  Metadata.blast_outputs sample = blast_outputs →
  Metadata.Build (Metadata.name sample) (Metadata.records sample) alleleset
    blast_outputs (Metadata.allelefile sample) (Metadata.allelefiles sample)
  = sample.
Proof. destruct sample. simpl. by intros <- <-. Qed.

Lemma remote_blast_sample_ok (qblast : string → result string) (path : string)
    (files files' : texts) (sample sample' : Metadata.t) :
  remote_blast_sample qblast path files sample = Ok (files', sample') →
  sample' = Metadata.Build (Metadata.name sample) (Metadata.records sample)
              (Some (default ∅ (Metadata.alleleset sample)
                     ∪ {[Metadata.records sample]}))
              (Some (report_path path (Metadata.name sample)))
              (Metadata.allelefile sample) (Metadata.allelefiles sample)
  ∧ files ⊆ files'
  ∧ is_Some (files' !! report_path path (Metadata.name sample)).
Proof.
  unfold remote_blast_sample, isfile, report_path.
  set (p := Os.join path _).
  assert (try_except
            (alleleset ← getattr (Metadata.alleleset sample);
             Ok (alleleset ∪ {[Metadata.records sample]}))
            AttributeError (Ok (∅ ∪ {[Metadata.records sample]}))
          = Ok (default ∅ (Metadata.alleleset sample)
                ∪ {[Metadata.records sample]})) as ->
    by (by destruct (Metadata.alleleset sample)).
  cbn [mbind result_bind Metadata.records].
  case_bool_decide as Hfile; cbn [negb].
  - intros [= <- <-]. done.
  - destruct (qblast _) as [text|e]; [|done]. cbn [mbind result_bind].
    intros [= <- <-]. split; [done|]. split.
    + apply insert_subseteq. by apply eq_None_not_Some.
    + rewrite lookup_insert_eq. by eexists.
Qed.

Lemma remote_blast_sample_again (qblast : string → result string)
    (path : string) (files : texts) (sample : Metadata.t) :
  blasted path files sample →
  remote_blast_sample qblast path files sample = Ok (files, sample).
Proof.
  intros (alleleset & Hset & Hin & Hout & Hfile).
  unfold remote_blast_sample, isfile. fold (report_path path (Metadata.name sample)).
  rewrite Hset. cbn [getattr mbind result_bind try_except].
  rewrite bool_decide_true by done. cbn [negb].
  replace (alleleset ∪ {[Metadata.records sample]}) with alleleset.
  - by rewrite metadata_eta.
  - symmetry. rewrite (comm_L (∪)). apply subseteq_union_1_L.
    by apply singleton_subseteq_l.
Qed.

Lemma remote_blast_ok (qblast : string → result string) (path : string)
    (samples : list Metadata.t) (files files' : texts)
    (samples' : list Metadata.t) :
  remote_blast qblast path files samples = Ok (files', samples') →
  files ⊆ files'
  ∧ Forall2 (fun sample sample' =>
               sample' = Metadata.Build (Metadata.name sample)
                           (Metadata.records sample)
                           (Some (default ∅ (Metadata.alleleset sample)
                                  ∪ {[Metadata.records sample]}))
                           (Some (report_path path (Metadata.name sample)))
                           (Metadata.allelefile sample)
                           (Metadata.allelefiles sample)
               ∧ is_Some (files' !! report_path path (Metadata.name sample)))
      samples samples'.
Proof.
  unfold remote_blast. revert files files' samples'.
  induction samples as [|sample samples IH]; intros files files' samples';
    cbn [for_each_with].
  - intros [= <- <-]. split; [done|constructor].
  - destruct (remote_blast_sample _ _ _ _) as [[files1 sample1]|e] eqn:Hstep;
      [|done].
    cbn [mbind result_bind fst snd].
    destruct (for_each_with _ files1 samples) as [[files2 samples2]|e] eqn:Hrest;
      [|done].
    cbn [mbind result_bind fst snd]. intros [= <- <-].
    apply remote_blast_sample_ok in Hstep as (Hs & Hsub & Hfile).
    apply IH in Hrest as (Hsub' & Hall).
    split; [by etrans|]. constructor; [|done]. split; [done|].
    destruct Hfile as [text Htext]. exists text.
    by eapply lookup_weaken.
Qed.

(** X17.  [remote_blast] leaves the files it finds as they are, puts the
    query of every sample among its alleles and its report on disk, and
    a second run sends no request and changes nothing. *)
Theorem remote_blast_twice (qblast : string → result string) (path : string)
    (files files' : texts) (samples samples' : list Metadata.t) :
  remote_blast qblast path files samples = Ok (files', samples') →
  files ⊆ files'
  ∧ Forall (blasted path files') samples'
  ∧ ∀ qblast', remote_blast qblast' path files' samples' = Ok (files', samples').
Proof.
  intros Hrun. destruct (remote_blast_ok _ _ _ _ _ _ Hrun) as (Hsub & Hall).
  split; [done|].
  assert (Forall (blasted path files') samples') as Hblasted.
  { clear Hrun Hsub. induction Hall as [|sample sample' ? ? [-> Hfile] _ IH];
      constructor; [|done].
    eexists. cbn [Metadata.alleleset Metadata.records Metadata.blast_outputs
                  Metadata.name].
    split; [done|]. split; [|done].
    apply elem_of_union_r. by apply elem_of_singleton. }
  split; [done|]. intros qblast'. clear Hrun Hall Hsub. unfold remote_blast.
  induction Hblasted as [|sample' samples' Hb _ IH]; [done|].
  cbn [for_each_with]. rewrite (remote_blast_sample_again _ _ _ _ Hb).
  cbn [mbind result_bind fst snd]. by rewrite IH.
Qed.

Lemma remote_blast_twice_witness :
  let files' : texts := {["run/geneA_nr.xml" := "report for ACGT"]} in
  let samples' :=
    [Metadata.Build "geneA" "ACGT" (Some {["ACGT"]}) (Some "run/geneA_nr.xml")
       None None;
     Metadata.Build "geneA" "TTTT" (Some {["TTTT"]}) (Some "run/geneA_nr.xml")
       None None] in
  remote_blast (fun sequence => Ok ("report for " +:+ sequence)) "run" ∅
    [Metadata.Build "geneA" "ACGT" None None None None;
     Metadata.Build "geneA" "TTTT" None None None None]
  = Ok (files', samples')
  ∧ remote_blast (fun _ => Raise ValueError) "run" files' samples'
    = Ok (files', samples').
Proof.
  assert (remote_blast (fun sequence => Ok ("report for " +:+ sequence)) "run" ∅
            [Metadata.Build "geneA" "ACGT" None None None None;
             Metadata.Build "geneA" "TTTT" None None None None]
          = Ok ({["run/geneA_nr.xml" := "report for ACGT"]},
                [Metadata.Build "geneA" "ACGT" (Some {["ACGT"]})
                   (Some "run/geneA_nr.xml") None None;
                 Metadata.Build "geneA" "TTTT" (Some {["TTTT"]})
                   (Some "run/geneA_nr.xml") None None])) as Hrun
    by (vm_compute; reflexivity).
  split; [exact Hrun|].
  apply (remote_blast_twice _ _ _ _ _ _ Hrun).
Defined.

(** ** [parse] *)

Lemma parse_hsp_spec (self : Self.t) (sample : Metadata.t)
    (alleleset : gset string) (hsp : Hsp.t) :
  Metadata.alleleset sample = Some alleleset →
  parse_hsp self sample hsp
  = Ok (Metadata.Build (Metadata.name sample) (Metadata.records sample)
          (Some (if accepted self (Metadata.records sample) hsp
                 then alleleset ∪ {[Hsp.sbjct hsp]} else alleleset))
          (Metadata.blast_outputs sample)
          (Metadata.allelefile sample) (Metadata.allelefiles sample)).
Proof.
  intros Hset. unfold parse_hsp, accepted.
  destruct (bool_decide _ && absent _ _); cbn [andb];
    [destruct (PrimFloat.leb _ _)|].
  - by rewrite Hset.
  - by rewrite (metadata_eta sample (Some alleleset) _ Hset eq_refl).
  - by rewrite (metadata_eta sample (Some alleleset) _ Hset eq_refl).
Qed.

Lemma parse_hsps_spec (self : Self.t) (hsps : list Hsp.t) (sample : Metadata.t)
    (alleleset : gset string) :
  Metadata.alleleset sample = Some alleleset →
  for_in hsps (parse_hsp self) sample
  = Ok (Metadata.Build (Metadata.name sample) (Metadata.records sample)
          (Some (alleleset
                 ∪ list_to_set
                     (Hsp.sbjct
                        <$> filter (fun hsp =>
                                      accepted self (Metadata.records sample) hsp)
                              hsps)))
          (Metadata.blast_outputs sample)
          (Metadata.allelefile sample) (Metadata.allelefiles sample)).
Proof.
  revert sample alleleset.
  induction hsps as [|hsp hsps IH]; intros sample alleleset Hset; cbn [for_in].
  - rewrite filter_nil, fmap_nil, list_to_set_nil, (right_id_L ∅ (∪)).
    by rewrite metadata_eta.
  - rewrite (parse_hsp_spec _ _ _ _ Hset). cbn [mbind result_bind].
    rewrite (IH (Metadata.Build _ _ _ _ _ _) _ eq_refl).
    cbn [Metadata.name Metadata.records Metadata.blast_outputs
         Metadata.allelefile Metadata.allelefiles].
    do 2 f_equal. rewrite filter_cons.
    destruct (accepted self (Metadata.records sample) hsp) eqn:Hacc.
    + rewrite decide_True by done.
      rewrite fmap_cons, list_to_set_cons. by rewrite (assoc_L (∪)).
    + by rewrite decide_False by (by intros []).
Qed.

Lemma parse_alignments_spec (self : Self.t) (alignments : list (list Hsp.t))
    (sample : Metadata.t) (alleleset : gset string) :
  Metadata.alleleset sample = Some alleleset →
  for_in alignments
    (fun sample alignment => for_in alignment (parse_hsp self) sample) sample
  = for_in (concat alignments) (parse_hsp self) sample.
Proof.
  revert sample alleleset.
  induction alignments as [|alignment alignments IH];
    intros sample alleleset Hset; cbn [for_in concat]; [done|].
  rewrite for_in_app, (parse_hsps_spec _ _ _ _ Hset). cbn [mbind result_bind].
  by erewrite IH.
Qed.

Lemma parse_sample_spec (ncbixml_read : string → result (list (list Hsp.t)))
    (self : Self.t) (files : texts) (sample : Metadata.t)
    (alleleset : gset string) (blast_outputs text : string)
    (alignments : list (list Hsp.t)) :
  Metadata.alleleset sample = Some alleleset →
  Metadata.blast_outputs sample = Some blast_outputs →
  files !! blast_outputs = Some text →
  ncbixml_read text = Ok alignments →
  parse_sample ncbixml_read self files sample
  = Ok (Metadata.Build (Metadata.name sample) (Metadata.records sample)
          (Some (alleleset
                 ∪ list_to_set
                     (Hsp.sbjct
                        <$> filter (fun hsp =>
                                      accepted self (Metadata.records sample) hsp)
                              (concat alignments))))
          (Metadata.blast_outputs sample)
          (Metadata.allelefile sample) (Metadata.allelefiles sample)).
Proof.
  intros Hset Hout Hfile Hread. unfold parse_sample.
  rewrite Hout. cbn [getattr mbind result_bind]. rewrite Hfile, Hread.
  cbn [mbind result_bind].
  rewrite (parse_alignments_spec _ _ _ _ Hset).
  by rewrite (parse_hsps_spec _ _ _ _ Hset), Hout.
Qed.

Lemma elem_of_concat {A : Type} (x : A) (ls : list (list A)) :
  x ∈ concat ls ↔ ∃ l, x ∈ l ∧ l ∈ ls.
Proof.
  induction ls as [|l ls IH]; cbn [concat].
  - split; [by intros ?%elem_of_nil|]. by intros (l & _ & ?%elem_of_nil).
  - rewrite elem_of_app, IH. split.
    + intros [Hl|(l' & Hx & Hl')]; [exists l; split; [done|by left]|].
      exists l'. split; [done|by right].
    + intros (l' & Hx & [->|Hl']%elem_of_cons); [by left|].
      right. by exists l'.
Qed.

Lemma accepted_subject (self : Self.t) (records : string) (hsp : Hsp.t) :
  accepted self records hsp = true →
  Py.len (Hsp.sbjct hsp) = Py.len records ∧ absent "-" (Hsp.sbjct hsp) = true.
Proof.
  unfold accepted. intros [[Hlen Hgap]%andb_prop _]%andb_prop.
  by apply bool_decide_eq_true in Hlen.
Qed.

(** X18.  On a sample whose report can be read, [parse] ends normally;
    it changes the allele set only, removes nothing from it, and adds
    exactly the subjects of the accepted HSPs, each as long as the query
    and free of gaps. *)
Theorem parse_adds_accepted_subjects
    (ncbixml_read : string → result (list (list Hsp.t))) (self : Self.t)
    (files : texts) (sample : Metadata.t) (alleleset : gset string)
    (blast_outputs text : string) (alignments : list (list Hsp.t)) :
  Metadata.alleleset sample = Some alleleset →
  Metadata.blast_outputs sample = Some blast_outputs →
  files !! blast_outputs = Some text →
  ncbixml_read text = Ok alignments →
  ∃ alleleset',
    parse_sample ncbixml_read self files sample
    = Ok (Metadata.Build (Metadata.name sample) (Metadata.records sample)
            (Some alleleset') (Metadata.blast_outputs sample)
            (Metadata.allelefile sample) (Metadata.allelefiles sample))
    ∧ (∀ allele, allele ∈ alleleset' ↔
         allele ∈ alleleset
         ∨ ∃ alignment hsp,
             alignment ∈ alignments ∧ hsp ∈ alignment
             ∧ accepted self (Metadata.records sample) hsp = true
             ∧ Hsp.sbjct hsp = allele)
    ∧ (∀ allele, allele ∈ alleleset' → allele ∉ alleleset →
         Py.len allele = Py.len (Metadata.records sample)
         ∧ absent "-" allele = true).
Proof.
  intros Hset Hout Hfile Hread. eexists.
  split; [by eapply parse_sample_spec|].
  assert (∀ allele,
            allele ∈ (list_to_set
                        (Hsp.sbjct
                           <$> filter (fun hsp =>
                                         accepted self (Metadata.records sample) hsp)
                                 (concat alignments)) : gset string) ↔
            ∃ alignment hsp,
              alignment ∈ alignments ∧ hsp ∈ alignment
              ∧ accepted self (Metadata.records sample) hsp = true
              ∧ Hsp.sbjct hsp = allele) as Hnew.
  { intros allele. rewrite elem_of_list_to_set, list_elem_of_fmap. split.
    - intros (hsp & -> & [Hacc Hin]%list_elem_of_filter).
      apply elem_of_concat in Hin as (alignment & Hhsp & Halign).
      exists alignment, hsp. split; [done|]. split; [done|].
      split; [by apply Is_true_true|done].
    - intros (alignment & hsp & Halign & Hhsp & Hacc & <-).
      exists hsp. split; [done|]. apply list_elem_of_filter.
      split; [by apply Is_true_true|].
      apply elem_of_concat. by exists alignment. }
  split.
  - intros allele. by rewrite elem_of_union, Hnew.
  - intros allele [Hold|Hadded]%elem_of_union Hfresh; [done|].
    apply Hnew in Hadded as (_ & hsp & _ & _ & Hacc & <-).
    by apply accepted_subject in Hacc.
Qed.

Lemma parse_adds_accepted_subjects_witness :
  ∃ alleleset',
    parse_sample
      (fun _ => Ok [[Hsp.Build "ACGA" 3; Hsp.Build "AC-T" 3; Hsp.Build "ACG" 3];
                    [Hsp.Build "TTTT" 0]])
      small_self {["run/geneA_nr.xml" := "report"]}
      (Metadata.Build "geneA" "ACGT" (Some {["ACGT"]}) (Some "run/geneA_nr.xml")
         None None)
    = Ok (Metadata.Build "geneA" "ACGT" (Some alleleset')
            (Some "run/geneA_nr.xml") None None)
    ∧ ∀ allele, allele ∈ alleleset' → allele ∉ ({["ACGT"]} : gset string) →
        Py.len allele = Py.len "ACGT" ∧ absent "-" allele = true.
Proof.
  destruct (parse_adds_accepted_subjects
              (fun _ => Ok [[Hsp.Build "ACGA" 3; Hsp.Build "AC-T" 3;
                             Hsp.Build "ACG" 3];
                            [Hsp.Build "TTTT" 0]])
              small_self {["run/geneA_nr.xml" := "report"]}
              (Metadata.Build "geneA" "ACGT" (Some {["ACGT"]})
                 (Some "run/geneA_nr.xml") None None)
              {["ACGT"]} "run/geneA_nr.xml" "report"
              [[Hsp.Build "ACGA" 3; Hsp.Build "AC-T" 3; Hsp.Build "ACG" 3];
               [Hsp.Build "TTTT" 0]])
    as (alleleset' & Hrun & _ & Hnew);
    [reflexivity|reflexivity|vm_compute; reflexivity|reflexivity|].
  exists alleleset'. split; [exact Hrun|exact Hnew].
Defined.

(** ** The allele sets of a run *)

Lemma record_extraction_spec (upper : string → string) (file : list Fasta.t)
    (samples : list Metadata.t) :
  record_extraction upper file samples
  = samples
    ++ ((fun record => Metadata.Build (Fasta.id record) (upper (Fasta.seq record))
                         None None None None) <$> file).
Proof.
  unfold record_extraction. revert samples.
  induction file as [|record file IH]; intros samples; cbn [foldl fmap list_fmap].
  - by rewrite app_nil_r.
  - rewrite IH. by rewrite <- app_assoc.
Qed.

Lemma for_each_with_ok {S X Y : Type} (body : S → X → result (S * Y))
    (R : X → Y → Prop) (xs : list X) (s s' : S) (ys : list Y) :
  (∀ s x s' y, body s x = Ok (s', y) → R x y) →
  for_each_with body s xs = Ok (s', ys) → Forall2 R xs ys.
Proof.
  intros Hbody. revert s s' ys.
  induction xs as [|x xs IH]; intros s s' ys; cbn [for_each_with].
  - intros [= <- <-]. constructor.
  - destruct (body s x) as [[s1 y]|e] eqn:Hstep; [|done].
    cbn [mbind result_bind fst snd].
    destruct (for_each_with body s1 xs) as [[s2 ys']|e] eqn:Hrest; [|done].
    cbn [mbind result_bind fst snd]. intros [= <- <-].
    constructor; [by eapply Hbody|by eapply IH].
Qed.

Lemma create_allele_file_sample_ok (iter_set : gset string → list string)
    (path : string) (written written' : fastas) (sample sample' : Metadata.t) :
  create_allele_file_sample iter_set path written sample = Ok (written', sample') →
  sample' = Metadata.Build (Metadata.name sample) (Metadata.records sample)
              (Metadata.alleleset sample) (Metadata.blast_outputs sample)
              (Some (allele_path path (Metadata.name sample)))
              (Some (default [] (Metadata.allelefiles sample)
                     ++ [allele_path path (Metadata.name sample)]))
  ∧ is_Some (Metadata.alleleset sample).
Proof.
  unfold create_allele_file_sample. fold (allele_path path (Metadata.name sample)).
  assert (try_except
            (allelefiles ← getattr (Metadata.allelefiles sample);
             Ok (allelefiles ++ [allele_path path (Metadata.name sample)]))
            AttributeError (Ok ([] ++ [allele_path path (Metadata.name sample)]))
          = Ok (default [] (Metadata.allelefiles sample)
                ++ [allele_path path (Metadata.name sample)])) as ->
    by (by destruct (Metadata.allelefiles sample)).
  cbn [mbind result_bind].
  destruct (Metadata.alleleset sample) as [alleleset|]; [|done].
  cbn [getattr mbind result_bind]. intros [= <- <-]. by split; [|eexists].
Qed.

Lemma uniform_parse_sample (ncbixml_read : string → result (list (list Hsp.t)))
    (self : Self.t) (path : string) (files : texts) (sample sample' : Metadata.t) :
  Metadata.alleleset sample = Some {[Metadata.records sample]} →
  Metadata.blast_outputs sample
  = Some (report_path path (Metadata.name sample)) →
  is_Some (files !! report_path path (Metadata.name sample)) →
  parse_sample ncbixml_read self files sample = Ok sample' →
  Metadata.name sample' = Metadata.name sample
  ∧ Metadata.records sample' = Metadata.records sample
  ∧ Metadata.allelefiles sample' = Metadata.allelefiles sample
  ∧ uniform sample'.
Proof.
  intros Hset Hout [text Hfile] Hparse.
  destruct (ncbixml_read text) as [alignments|e] eqn:Hread.
  - rewrite (parse_sample_spec _ _ _ _ _ _ _ _ Hset Hout Hfile Hread) in Hparse.
    injection Hparse as <-.
    cbn [Metadata.name Metadata.records Metadata.allelefiles]. do 3 (split; [done|]).
    eexists. cbn [Metadata.alleleset Metadata.records]. split; [done|]. split.
    + apply elem_of_union_l. by apply elem_of_singleton.
    + intros allele [->%elem_of_singleton|Hnew]%elem_of_union; [by split; [|left]|].
      apply elem_of_list_to_set, list_elem_of_fmap in Hnew
        as (hsp & -> & [Hacc _]%list_elem_of_filter).
      apply Is_true_true, accepted_subject in Hacc as [Hlen Hgap].
      split; [done|by right].
  - unfold parse_sample in Hparse. rewrite Hout in Hparse.
    cbn [getattr mbind result_bind] in Hparse.
    by rewrite Hfile, Hread in Hparse.
Qed.

(** X19.  After the first four steps of [main] every sample carries the
    name and the upper-cased sequence of its record; its alleles hold
    the query, are all as long as the query and, the query apart, free
    of gaps; and it has one allele file. *)
Theorem alleles_of_a_run (upper : string → string)
    (qblast : string → result string)
    (ncbixml_read : string → result (list (list Hsp.t)))
    (iter_set : gset string → list string) (self : Self.t) (path : string)
    (file : list Fasta.t) (files files' : texts) (written written' : fastas)
    (samples : list Metadata.t) :
  main_allele_files upper qblast ncbixml_read iter_set self path file files
    written = Ok (files', written', samples) →
  Forall2 (fun record sample =>
             Metadata.name sample = Fasta.id record
             ∧ Metadata.records sample = upper (Fasta.seq record)
             ∧ uniform sample
             ∧ Metadata.allelefiles sample
               = Some [allele_path path (Fasta.id record)])
    file samples.
Proof.
  unfold main_allele_files. rewrite record_extraction_spec, app_nil_l.
  destruct (remote_blast _ _ _ _) as [[files1 samples1]|e] eqn:Hblast; [|done].
  cbn [mbind result_bind fst snd].
  destruct (parse _ _ _ _) as [samples2|e] eqn:Hparse; [|done].
  cbn [mbind result_bind].
  destruct (create_allele_file _ _ _ _) as [[written3 samples3]|e] eqn:Hcreate;
    [|done].
  cbn [mbind result_bind fst snd]. intros [= <- <- <-].
  apply remote_blast_ok in Hblast as [_ Hblast].
  apply for_each_ok in Hparse.
  apply (for_each_with_ok _
           (fun sample sample' =>
              sample' = Metadata.Build (Metadata.name sample)
                          (Metadata.records sample) (Metadata.alleleset sample)
                          (Metadata.blast_outputs sample)
                          (Some (allele_path path (Metadata.name sample)))
                          (Some (default [] (Metadata.allelefiles sample)
                                 ++ [allele_path path (Metadata.name sample)]))))
    in Hcreate;
    [|intros ???? Hstep; by apply create_allele_file_sample_ok in Hstep as [? _]].
  apply Forall2_fmap_l in Hblast.
  revert samples2 samples3 Hparse Hcreate.
  induction Hblast as [|record sample1 file samples1 [-> Hfile] _ IH];
    intros samples2 samples3 Hparse Hcreate.
  - apply Forall2_nil_inv_l in Hparse as ->.
    apply Forall2_nil_inv_l in Hcreate as ->. constructor.
  - apply Forall2_cons_inv_l in Hparse
      as (sample2 & samples2' & Hstep & Hparse & ->).
    apply Forall2_cons_inv_l in Hcreate
      as (sample3 & samples3' & -> & Hcreate & ->).
    constructor; [|by eapply IH].
    cbn [Metadata.name Metadata.records Metadata.alleleset Metadata.allelefiles
         default] in Hfile, Hstep.
    apply (uniform_parse_sample _ _ path) in Hstep
      as (Hname & Hrecords & Hfiles & alleleset & Hset & Hin & Hall);
      [|cbn [Metadata.alleleset Metadata.records]; by rewrite (left_id_L ∅ (∪))
       |done|done].
    cbn [Metadata.name Metadata.records Metadata.allelefiles] in *.
    rewrite Hname, Hrecords, Hfiles. do 2 (split; [done|]). split; [|done].
    exists alleleset. cbn [Metadata.alleleset Metadata.records].
    rewrite Hrecords in Hin, Hall. done.
Qed.

Lemma alleles_of_a_run_witness :
  Forall2 (fun record sample =>
             Metadata.name sample = Fasta.id record
             ∧ Metadata.records sample = Fasta.seq record
             ∧ uniform sample
             ∧ Metadata.allelefiles sample
               = Some [allele_path "run" (Fasta.id record)])
    [Fasta.Build "geneA" "ACGT"]
    [Metadata.Build "geneA" "ACGT" (Some {["ACGT"; "ACGA"]})
       (Some "run/geneA_nr.xml") (Some "run/alleles/geneA_alleles.tfa")
       (Some ["run/alleles/geneA_alleles.tfa"])].
Proof.
  apply (alleles_of_a_run (fun sequence => sequence)
           (fun sequence => Ok ("report for " +:+ sequence))
           (fun _ => Ok [[Hsp.Build "ACGA" 3; Hsp.Build "AC-T" 3];
                         [Hsp.Build "TTTT" 0]])
           elements small_self "run" [Fasta.Build "geneA" "ACGT"] ∅
           {["run/geneA_nr.xml" := "report for ACGT"]} ∅
           {["run/alleles/geneA_alleles.tfa" :=
               [Fasta.Build "geneA_0" "ACGA"; Fasta.Build "geneA_1" "ACGT"]]}).
  vm_compute. reflexivity.
Defined.

(** ** The records of the allele file and of the probe file *)

Lemma append_inj_r (s t u : string) : s +:+ t = s +:+ u → t = u.
Proof.
  induction s as [|c s IH]; [done|].
  change (String c s +:+ t) with (String c (s +:+ t)).
  change (String c s +:+ u) with (String c (s +:+ u)).
  intros [= H]. by apply IH.
Qed.

Lemma header_inj (name : string) (i j : Z) :
  header name i = header name j → i = j.
Proof.
  unfold header. intros H%append_inj_r%(append_inj_r "_").
  apply (f_equal Py.int) in H. rewrite !int_str_of_int in H. by injection H.
Qed.

Lemma fasta_records_spec (name : string) (l : list string)
    (acc : list Fasta.t) (n : Z) :
  foldl (fasta_record name) (acc, n) l
  = (acc ++ imap (fun i alleleseq =>
                    Fasta.Build (header name (n + Z.of_nat i)) alleleseq) l,
     n + Z.of_nat (length l)).
Proof.
  revert acc n. induction l as [|a l IH]; intros acc n; cbn [foldl imap length].
  - by rewrite app_nil_r, Z.add_0_r.
  - unfold fasta_record at 2. cbn [fst snd]. rewrite IH.
    rewrite <- app_assoc. cbn [app]. f_equal; [|lia].
    do 2 f_equal; [by rewrite Z.add_0_r|].
    apply imap_ext. intros i x _. cbn. do 2 f_equal. lia.
Qed.

(** X20.  [create_allele_file] raises [AttributeError] on a sample
    without an allele set.  Otherwise the file it writes for the sample
    holds one record for each allele, each allele once, the record at
    position [i] having the header [name_i]; no two headers are
    equal. *)
Theorem allele_file_records (iter_set : gset string → list string)
    (path : string) (written : fastas) (sample : Metadata.t) :
  (∀ alleleset, iter_set alleleset ≡ₚ elements alleleset) →
  match Metadata.alleleset sample with
  | None =>
      create_allele_file_sample iter_set path written sample
      = Raise AttributeError
  | Some alleleset =>
      ∃ sample' fastalist,
        create_allele_file_sample iter_set path written sample
        = Ok (<[allele_path path (Metadata.name sample) := fastalist]> written,
              sample')
        ∧ Fasta.seq <$> fastalist ≡ₚ elements alleleset
        ∧ (∀ (i : nat) fasta, fastalist !! i = Some fasta →
             Fasta.id fasta = header (Metadata.name sample) (Z.of_nat i))
        ∧ NoDup (Fasta.id <$> fastalist)
        ∧ length fastalist = size alleleset
  end.
Proof.
  intros Horder. unfold create_allele_file_sample.
  fold (allele_path path (Metadata.name sample)).
  assert (∀ l, ∃ allelefiles : list string,
            try_except
              (allelefiles ← getattr (Metadata.allelefiles sample);
               Ok (allelefiles ++ [l]))
              AttributeError (Ok ([] ++ [l]))
            = Ok allelefiles) as Hfiles
    by (intros l; destruct (Metadata.allelefiles sample); by eexists).
  destruct (Hfiles (allele_path path (Metadata.name sample))) as [allelefiles ->].
  cbn [mbind result_bind].
  destruct (Metadata.alleleset sample) as [alleleset|]; [|done].
  cbn [getattr mbind result_bind]. rewrite fasta_records_spec. cbn [fst app].
  set (fastalist := imap _ _).
  assert (∀ (i : nat) fasta, fastalist !! i = Some fasta →
            Fasta.id fasta = header (Metadata.name sample) (Z.of_nat i)) as Hid.
  { intros i fasta. unfold fastalist. rewrite list_lookup_imap.
    destruct (iter_set alleleset !! i); [|done]. by intros [= <-]. }
  eexists. exists fastalist. split; [done|]. split; [|split; [done|split]].
  - rewrite <- (Horder alleleset). unfold fastalist.
    assert (∀ (f : nat → Z) (l : list string),
              Fasta.seq <$> imap (fun i alleleseq =>
                                    Fasta.Build (header (Metadata.name sample) (f i))
                                      alleleseq) l = l) as Hseq.
    { intros f l. revert f. induction l as [|a l IH]; intros f; [done|].
      cbn [imap fmap list_fmap Fasta.seq]. f_equal. apply (IH (f ∘ S)). }
    by rewrite (Hseq (fun i => 0 + Z.of_nat i)).
  - apply NoDup_alt. intros i j h. rewrite !list_lookup_fmap.
    destruct (fastalist !! i) as [fi|] eqn:Hi; [|done].
    destruct (fastalist !! j) as [fj|] eqn:Hj; [|done].
    cbn [fmap option_fmap option_map]. intros [= <-] [= Heq].
    rewrite (Hid _ _ Hi), (Hid _ _ Hj) in Heq.
    apply header_inj in Heq. lia.
  - unfold fastalist. rewrite length_imap, (Horder alleleset). done.
Qed.

Lemma allele_file_records_witness :
  ∃ sample' fastalist,
    create_allele_file_sample elements "run" ∅
      (Metadata.Build "geneA" "ACGT" (Some {["ACGT"; "ACGA"]}) None None None)
    = Ok (<[allele_path "run" "geneA" := fastalist]> ∅, sample')
    ∧ Fasta.seq <$> fastalist ≡ₚ elements ({["ACGT"; "ACGA"]} : gset string)
    ∧ (∀ (i : nat) fasta, fastalist !! i = Some fasta →
         Fasta.id fasta = header "geneA" (Z.of_nat i))
    ∧ NoDup (Fasta.id <$> fastalist)
    ∧ length fastalist = size ({["ACGT"; "ACGA"]} : gset string).
Proof.
  apply (allele_file_records elements "run" ∅
           (Metadata.Build "geneA" "ACGT" (Some {["ACGT"; "ACGA"]})
              None None None)).
  intros alleleset. reflexivity.
Defined.

Lemma probe_records_spec (name : string) (l : list string)
    (acc : list Fasta.t) (k : nat) :
  foldl (probe_record name) acc (imap (fun i probe => ((k + i)%nat, probe)) l)
  = acc ++ imap (fun i probe =>
                   Fasta.Build (header name (Z.of_nat k + Z.of_nat i)) probe) l.
Proof.
  revert acc k. induction l as [|a l IH]; intros acc k; cbn [foldl imap].
  - by rewrite app_nil_r.
  - unfold probe_record at 2. cbn [fst snd].
    rewrite (imap_ext _ (fun i probe => ((S k + i)%nat, probe)) l)
      by (intros i x _; cbn; f_equal; lia).
    rewrite IH, <- app_assoc. cbn [app]. do 2 f_equal.
    + do 2 f_equal. lia.
    + apply imap_ext. intros i x _. cbn. do 2 f_equal. lia.
Qed.

(** X21.  The probe file gets the records that the loop of
    [create_allele_file] would write for the probe set: the record at
    position [i] has the header [name_i] and the [i]-th probe, the
    [count += 1] in the body of the [enumerate] loop having no
    effect. *)
Theorem probe_file_records (iter_set : gset string → list string)
    (name : string) (probeallele : gset string) :
  probe_records iter_set name probeallele
  = (foldl (fasta_record name) ([], 0) (iter_set probeallele)).1
  ∧ ∀ (i : nat) fasta,
      probe_records iter_set name probeallele !! i = Some fasta ↔
      ∃ probe, iter_set probeallele !! i = Some probe
               ∧ fasta = Fasta.Build (header name (Z.of_nat i)) probe.
Proof.
  assert (probe_records iter_set name probeallele
          = imap (fun i probe => Fasta.Build (header name (Z.of_nat i)) probe)
              (iter_set probeallele)) as Hrecords.
  { unfold probe_records.
    rewrite (imap_ext pair (fun i probe => ((0 + i)%nat, probe))) by done.
    by rewrite probe_records_spec. }
  split.
  - rewrite Hrecords, fasta_records_spec. cbn [fst app]. done.
  - intros i fasta. rewrite Hrecords, list_lookup_imap.
    destruct (iter_set probeallele !! i) as [probe|]; cbn.
    + split; [intros [= <-]; by exists probe|by intros (? & [= <-] & ->)].
    + split; [done|by intros (? & ? & _)].
Qed.
